(** * Pipeline orchestration of the lower-environment deployment platform

    A shallow embedding of [PipelineOrchestrator] (backend services), of
    the HTTP handlers that sit next to it (deployment read, delete and
    trigger, pipeline cancel) and of the parts of [GitHubService] that
    compute (the name of a repository, the type of an application),
    followed by the properties of the step builder, the runner, the cancel
    operation, the handlers and the two computations.

    Conventions of the embedding:
    - JavaScript objects held in MongoDB collections are records stored in
      finite maps keyed by their [id] field; the stores keep a document as
      it is handed to them (no schema validation), and storage, logging and
      broadcast calls never throw;
    - [uuidv4()], [new Date()], the tool services and the socket hub are
      effects on an explicit [World]; the tool services are an oracle that
      the world carries, together with a trace of the calls that were made;
    - an [async] method is a computation in the monad [M], which threads its
      state and may throw; [try]/[catch]/[finally] are written with
      [attempt];
    - the runner's state holds the pipeline object in memory next to the
      world: [step] in [executeStep(step, pipeline)] is the element
      [pipeline.steps[i]], so a write to it is a write to the pipeline;
    - a run started by [startPipeline] is queued in the world and taken up
      by [run_background]; it runs alone, no other request interleaves (in
      the source the run has gone as far as its first [await] when
      [startPipeline] returns: nothing is saved before that point, so the
      stored documents at the return and the end of the run are the same);
    - a document is stored under its own [id], so [deployment.save()] of a
      document that was found writes the entry it was read from;
    - the body of the trigger handler's timer callback is left out;
    - a JavaScript string is the list of its characters, and what the file
      system and git answer to [detectApplicationType] is a [Checkout]. *)

From stdpp Require Import base option list strings gmap fin_maps relations.

Open Scope string_scope.
Open Scope list_scope.
Open Scope stdpp_scope.

Set Warnings "-register-all".

(** ** Data model (shared/types.ts) *)

(** [Record<string, any>] and the tool specific configuration payloads. *)
Inductive Json : Type :=
| JUndefined
| JNull
| JBool (b : bool)
| JNum (n : Z)
| JStr (s : string)
| JArr (items : list Json)
| JObj (fields : list (string * Json)).

Definition JObject : Type := list (string * Json).

(** [obj.k] *)
Fixpoint field (k : string) (o : JObject) : Json :=
  match o with
  | [] => JUndefined
  | (k', v) :: rest => if decide (k' = k) then v else field k rest
  end.

(** [obj.k = v]: an existing key keeps its place, a new key goes last. *)
Fixpoint obj_set (k : string) (v : Json) (o : JObject) : JObject :=
  match o with
  | [] => [(k, v)]
  | (k', v') :: rest =>
      if decide (k' = k) then (k, v) :: rest else (k', v') :: obj_set k v rest
  end.

Definition json_field (k : string) (j : Json) : Json :=
  match j with
  | JObj o => field k o
  | _ => JUndefined
  end.

Inductive DeploymentStatus : Type :=
| DPending | DRunning | DCompleted | DFailed | DCancelled.

Inductive PipelineStatus : Type :=
| PPending | PRunning | PCompleted | PFailed | PCancelled.

Inductive PipelineStepStatus : Type :=
| SPending | SRunning | SCompleted | SFailed | SSkipped | SCancelled.

#[global] Instance DeploymentStatus_eq_dec : EqDecision DeploymentStatus.
Proof. solve_decision. Defined.
#[global] Instance PipelineStatus_eq_dec : EqDecision PipelineStatus.
Proof. solve_decision. Defined.
#[global] Instance PipelineStepStatus_eq_dec : EqDecision PipelineStepStatus.
Proof. solve_decision. Defined.

(** [Date] values are ticks of the world's clock. *)
Definition Date : Type := nat.

(** [DeploymentConfig.config]; only the sections the orchestrator reads. *)
Record ConfigSections : Type := mkConfigSections {
  terraform : option JObject;
  helm : option JObject;
  ansible : option JObject
}.

Record DeploymentConfig : Type := mkDeployment {
  d_id : string;
  d_name : string;
  githubRepo : string;
  branch : string;
  targetGCPProject : string;
  targetCluster : string;
  targetNamespace : string;
  deploymentType : string;
  d_status : DeploymentStatus;
  lastDeployedAt : option Date;
  config : ConfigSections
}.

Record PipelineStep : Type := mkStep {
  s_id : string;
  s_name : string;
  s_type : string;
  s_status : PipelineStepStatus;
  s_startTime : option Date;
  s_endTime : option Date;
  logs : list string;
  dependencies : list string;
  s_config : Json
}.

Record Pipeline : Type := mkPipeline {
  p_id : string;
  deploymentId : string;
  p_status : PipelineStatus;
  steps : list PipelineStep;
  p_startTime : option Date;
  p_endTime : option Date;
  triggeredBy : string
}.

(** Field assignments. *)
Definition set_d_status (v : DeploymentStatus) (d : DeploymentConfig) : DeploymentConfig :=
  mkDeployment (d_id d) (d_name d) (githubRepo d) (branch d) (targetGCPProject d)
    (targetCluster d) (targetNamespace d) (deploymentType d) v (lastDeployedAt d) (config d).

Definition set_lastDeployedAt (t : Date) (d : DeploymentConfig) : DeploymentConfig :=
  mkDeployment (d_id d) (d_name d) (githubRepo d) (branch d) (targetGCPProject d)
    (targetCluster d) (targetNamespace d) (deploymentType d) (d_status d) (Some t) (config d).

Definition set_s_status (v : PipelineStepStatus) (s : PipelineStep) : PipelineStep :=
  mkStep (s_id s) (s_name s) (s_type s) v (s_startTime s) (s_endTime s)
    (logs s) (dependencies s) (s_config s).

Definition set_s_startTime (t : Date) (s : PipelineStep) : PipelineStep :=
  mkStep (s_id s) (s_name s) (s_type s) (s_status s) (Some t) (s_endTime s)
    (logs s) (dependencies s) (s_config s).

Definition set_s_endTime (t : Date) (s : PipelineStep) : PipelineStep :=
  mkStep (s_id s) (s_name s) (s_type s) (s_status s) (s_startTime s) (Some t)
    (logs s) (dependencies s) (s_config s).

(** [step.logs.push(...lines)] *)
Definition push_logs (lines : list string) (s : PipelineStep) : PipelineStep :=
  mkStep (s_id s) (s_name s) (s_type s) (s_status s) (s_startTime s) (s_endTime s)
    (logs s ++ lines) (dependencies s) (s_config s).

Definition set_p_status (v : PipelineStatus) (p : Pipeline) : Pipeline :=
  mkPipeline (p_id p) (deploymentId p) v (steps p) (p_startTime p) (p_endTime p)
    (triggeredBy p).

Definition set_p_endTime (t : Date) (p : Pipeline) : Pipeline :=
  mkPipeline (p_id p) (deploymentId p) (p_status p) (steps p) (p_startTime p) (Some t)
    (triggeredBy p).

Definition set_steps (l : list PipelineStep) (p : Pipeline) : Pipeline :=
  mkPipeline (p_id p) (deploymentId p) (p_status p) l (p_startTime p) (p_endTime p)
    (triggeredBy p).

(** The step object at position [i] of [pipeline.steps] is updated in place. *)
Definition set_step (i : nat) (s : PipelineStep) (p : Pipeline) : Pipeline :=
  set_steps (<[i := s]> (steps p)) p.

(** ** The world: stores, clock, identifier source, tools, socket hub *)

(** Calls into the tool services made by [executeStep]. *)
Inductive Invocation : Type :=
| CloneRepository (repository branch_ : Json)
| TerraformPlan (cfg : Json)
| TerraformApply (cfg : Json)
| HelmDeploy (cfg : Json)
| AnsibleRunPlaybook (cfg : Json).

(** A tool either returns its output lines or rejects with an error message. *)
Inductive Outcome : Type :=
| Returns (output : list string)
| Rejects (message : string).

(** One entry of the call trace: which step object asked for which tool. *)
Record ToolCall : Type := mkToolCall {
  call_pipeline : string;
  call_index : nat;
  call_op : Invocation
}.

(** Payload of a ['pipeline-update'] event. *)
Inductive Update : Type :=
| StepUpdate (pipelineId : string) (step : PipelineStep)
| StatusUpdate (pipelineId : string) (status : PipelineStatus).

Record Event : Type := mkEvent {
  room : string;
  payload : Update
}.

Record World : Type := mkWorld {
  deployments : gmap string DeploymentConfig;
  pipelines : gmap string Pipeline;
  clock : Date;
  uuid_src : nat -> string;
  uuid_ctr : nat;
  tools : nat -> Invocation -> Outcome;
  invoked : list ToolCall;
  emitted : list Event;
  background : list Pipeline;
  timers : list (Pipeline * DeploymentConfig)
}.

Definition with_deployments (m : gmap string DeploymentConfig) (w : World) : World :=
  mkWorld m (pipelines w) (clock w) (uuid_src w) (uuid_ctr w) (tools w) (invoked w)
    (emitted w) (background w) (timers w).

Definition with_pipelines (m : gmap string Pipeline) (w : World) : World :=
  mkWorld (deployments w) m (clock w) (uuid_src w) (uuid_ctr w) (tools w) (invoked w)
    (emitted w) (background w) (timers w).

Definition with_clock (t : Date) (w : World) : World :=
  mkWorld (deployments w) (pipelines w) t (uuid_src w) (uuid_ctr w) (tools w) (invoked w)
    (emitted w) (background w) (timers w).

Definition with_uuid_ctr (n : nat) (w : World) : World :=
  mkWorld (deployments w) (pipelines w) (clock w) (uuid_src w) n (tools w) (invoked w)
    (emitted w) (background w) (timers w).

Definition with_invoked (l : list ToolCall) (w : World) : World :=
  mkWorld (deployments w) (pipelines w) (clock w) (uuid_src w) (uuid_ctr w) (tools w) l
    (emitted w) (background w) (timers w).

Definition with_emitted (l : list Event) (w : World) : World :=
  mkWorld (deployments w) (pipelines w) (clock w) (uuid_src w) (uuid_ctr w) (tools w)
    (invoked w) l (background w) (timers w).

Definition with_background (l : list Pipeline) (w : World) : World :=
  mkWorld (deployments w) (pipelines w) (clock w) (uuid_src w) (uuid_ctr w) (tools w)
    (invoked w) (emitted w) l (timers w).

Definition with_timers (l : list (Pipeline * DeploymentConfig)) (w : World) : World :=
  mkWorld (deployments w) (pipelines w) (clock w) (uuid_src w) (uuid_ctr w) (tools w)
    (invoked w) (emitted w) (background w) l.

(** ** The monad of asynchronous methods *)

(** A settled promise: fulfilled with a value or rejected with an [Error]
    carrying a message. *)
Inductive Result (A : Type) : Type :=
| Ok (a : A)
| Throw (message : string).
Arguments Ok {A} a.
Arguments Throw {A} message.

(** A method over mutable state [S]: the world for the facade and the
    handlers, the world and the pipeline object in memory for the runner. *)
Definition M (S A : Type) : Type := S -> Result A * S.

Definition ret {S A} (a : A) : M S A := fun s => (Ok a, s).

Definition bind {S A B} (m : M S A) (k : A -> M S B) : M S B :=
  fun s =>
    match m s with
    | (Ok a, s1) => k a s1
    | (Throw e, s1) => (Throw e, s1)
    end.

Definition throw {S A} (message : string) : M S A := fun s => (Throw message, s).

(** [try { m } catch (error) { ... }]: the outcome of [m] is handed to the
    continuation; what [m] did to the state before throwing stays done. *)
Definition attempt {S A} (m : M S A) : M S (Result A) :=
  fun s => let '(r, s1) := m s in (Ok r, s1).

Declare Scope m_scope.
Delimit Scope m_scope with M.
Notation "x <- m ;; k" := (bind m (fun x => k))
  (at level 100, m at next level, right associativity) : m_scope.
Notation "m ;; k" := (bind m (fun _ => k))
  (at level 100, right associativity) : m_scope.
Open Scope m_scope.

(** [uuidv4()] *)
Definition uuidv4 : M World string :=
  fun w => (Ok (uuid_src w (uuid_ctr w)), with_uuid_ctr (S (uuid_ctr w)) w).

(** [new Date()] *)
Definition new_Date : M World Date :=
  fun w => (Ok (clock w), with_clock (S (clock w)) w).

(** [Deployment.findById(id)] / [Deployment.findOne({ id })] *)
Definition Deployment_find (id : string) : M World (option DeploymentConfig) :=
  fun w => (Ok (deployments w !! id), w).

(** [deployment.save()] *)
Definition Deployment_save (d : DeploymentConfig) : M World unit :=
  fun w => (Ok tt, with_deployments (<[d_id d := d]> (deployments w)) w).

(** [Deployment.findByIdAndUpdate(id, update)]: no document, no change. *)
Definition Deployment_findByIdAndUpdate (id : string)
    (update : DeploymentConfig -> DeploymentConfig) : M World unit :=
  fun w => (Ok tt, with_deployments (alter update id (deployments w)) w).

(** [PipelineModel.findOne({ id })] *)
Definition Pipeline_findOne (id : string) : M World (option Pipeline) :=
  fun w => (Ok (pipelines w !! id), w).

(** [pipeline.save()] *)
Definition Pipeline_save (p : Pipeline) : M World unit :=
  fun w => (Ok tt, with_pipelines (<[p_id p := p]> (pipelines w)) w).

(** [io.to(room).emit('pipeline-update', payload)] *)
Definition emit (r : string) (u : Update) : M World unit :=
  fun w => (Ok tt, with_emitted (emitted w ++ [mkEvent r u]) w).

(** A call into a tool service on behalf of step [i] of pipeline [pid]. *)
Definition call_tool (pid : string) (i : nat) (op : Invocation) : M World (list string) :=
  fun w =>
    let w1 := with_invoked (invoked w ++ [mkToolCall pid i op]) w in
    match tools w (length (invoked w)) op with
    | Returns out => (Ok out, w1)
    | Rejects e => (Throw e, w1)
    end.

(** [steps[i]], then a property read: a [TypeError] when out of range. *)
Definition step_at {S} (l : list PipelineStep) (i : nat) : M S PipelineStep :=
  match l !! i with
  | Some s => ret s
  | None => throw "Cannot read properties of undefined"
  end.

(** [config.k], a [TypeError] with the message of Node when [config] is
    missing. *)
Definition prop {S} (k : string) (j : Json) : M S Json :=
  match j with
  | JUndefined => throw ("Cannot read properties of undefined (reading '" +:+ k +:+ "')")
  | JNull => throw ("Cannot read properties of null (reading '" +:+ k +:+ "')")
  | _ => ret (json_field k j)
  end.

(** ** PipelineOrchestrator.buildPipelineSteps *)

Definition newStep (id name type : string) (deps : list string) (cfg : Json) : PipelineStep :=
  mkStep id name type SPending None None [] deps cfg.

Definition buildPipelineSteps (deployment : DeploymentConfig) : M World (list PipelineStep) :=
  let steps := [] in
  (* Step 1: Clone repository *)
  id0 <- uuidv4 ;;
  let steps := steps ++ [newStep id0 "Clone Repository" "clone" []
                 (JObj [("repository", JStr (githubRepo deployment));
                        ("branch", JStr (branch deployment))])] in
  (* Step 2: Infrastructure steps *)
  steps <- match terraform (config deployment) with
           | Some tf =>
               id1 <- uuidv4 ;;
               s0 <- step_at steps 0 ;;
               let steps := steps ++ [newStep id1 "Terraform Plan" "terraform-plan"
                                        [s_id s0] (JObj tf)] in
               id2 <- uuidv4 ;;
               s1 <- step_at steps 1 ;;
               ret (steps ++ [newStep id2 "Terraform Apply" "terraform-apply"
                                [s_id s1] (JObj tf)])
           | None => ret steps
           end ;;
  (* Step 3: Application deployment *)
  steps <- match helm (config deployment) with
           | Some h =>
               id3 <- uuidv4 ;;
               dep <- (if terraform (config deployment) is Some _
                       then step_at steps 2 else step_at steps 0) ;;
               ret (steps ++ [newStep id3 "Helm Deploy" "helm-deploy" [s_id dep]
                                (JObj (obj_set "targetNamespace"
                                         (JStr (targetNamespace deployment))
                                         (obj_set "targetCluster"
                                            (JStr (targetCluster deployment)) h)))])
           | None => ret steps
           end ;;
  (* Step 4: Post-deployment configuration *)
  steps <- match ansible (config deployment) with
           | Some a =>
               id4 <- uuidv4 ;;
               last <- step_at steps (length steps - 1) ;;
               ret (steps ++ [newStep id4 "Ansible Configuration" "ansible-run"
                                [s_id last] (JObj a)])
           | None => ret steps
           end ;;
  ret steps.

(** ** The runner: state is the pipeline object in memory and the world *)

Definition Run (A : Type) : Type := M (Pipeline * World) A.

(** A world-only effect performed by the runner. *)
Definition liftW {A} (m : M World A) : Run A :=
  fun '(p, w) => let '(r, w1) := m w in (r, (p, w1)).

Definition get_pipeline : Run Pipeline := fun '(p, w) => (Ok p, (p, w)).

Definition modify_pipeline (f : Pipeline -> Pipeline) : Run unit :=
  fun '(p, w) => (Ok tt, (f p, w)).

(** The object [pipeline.steps[i]]. *)
Definition the_step (i : nat) : Run PipelineStep :=
  p <- get_pipeline ;; step_at (steps p) i.

(** An assignment to a field of [pipeline.steps[i]]. *)
Definition modify_step (i : nat) (f : PipelineStep -> PipelineStep) : Run unit :=
  modify_pipeline (fun p => set_steps (alter f i (steps p)) p).

(** ** PipelineOrchestrator.areDependenciesCompleted *)

(** [allSteps.find(s => s.id === depId)] *)
Definition find_step (depId : string) (allSteps : list PipelineStep) : option PipelineStep :=
  List.find (fun s => bool_decide (s_id s = depId)) allSteps.

Definition areDependenciesCompleted (step : PipelineStep) (allSteps : list PipelineStep) : bool :=
  forallb (fun depId =>
             match find_step depId allSteps with
             | Some dep => bool_decide (s_status dep = SCompleted)
             | None => false
             end) (dependencies step).

(** ** PipelineOrchestrator.executeStep *)

(** The [switch (step.type)] of [executeStep]. *)
Definition runTool (i : nat) : Run unit :=
  step <- the_step i ;;
  pipeline <- get_pipeline ;;
  let pid := p_id pipeline in
  if decide (s_type step = "clone") then
    repository <- prop "repository" (s_config step) ;;
    branch_ <- prop "branch" (s_config step) ;;
    _ <- liftW (call_tool pid i (CloneRepository repository branch_)) ;;
    ret tt
  else if decide (s_type step = "terraform-plan") then
    planOutput <- liftW (call_tool pid i (TerraformPlan (s_config step))) ;;
    modify_step i (push_logs planOutput)
  else if decide (s_type step = "terraform-apply") then
    applyOutput <- liftW (call_tool pid i (TerraformApply (s_config step))) ;;
    modify_step i (push_logs applyOutput)
  else if decide (s_type step = "helm-deploy") then
    helmOutput <- liftW (call_tool pid i (HelmDeploy (s_config step))) ;;
    modify_step i (push_logs helmOutput)
  else if decide (s_type step = "ansible-run") then
    ansibleOutput <- liftW (call_tool pid i (AnsibleRunPlaybook (s_config step))) ;;
    modify_step i (push_logs ansibleOutput)
  else
    throw ("Unknown step type: " +:+ s_type step).

Definition executeStep (i : nat) : Run unit :=
  modify_step i (set_s_status SRunning) ;;
  t <- liftW new_Date ;;
  modify_step i (set_s_startTime t) ;;
  step <- the_step i ;;
  modify_step i (push_logs ["Starting step: " +:+ s_name step]) ;;
  r <- attempt (
         runTool i ;;
         modify_step i (set_s_status SCompleted) ;;
         modify_step i (push_logs ["Step completed successfully: " +:+ s_name step])) ;;
  match r with
  | Ok _ => ret tt
  | Throw message =>
      modify_step i (set_s_status SFailed) ;;
      modify_step i (push_logs ["Step failed: " +:+ message])
  end ;;
  (* finally *)
  t <- liftW new_Date ;;
  modify_step i (set_s_endTime t) ;;
  pipeline <- get_pipeline ;;
  liftW (Pipeline_save pipeline).

(** ** PipelineOrchestrator.executePipeline *)

(** [for (const step of pipeline.steps)]: the array iterator is at position
    [i]; [n] bounds the number of steps still to visit. *)
Fixpoint scan (n i : nat) : Run unit :=
  match n with
  | 0 => ret tt
  | S n' =>
      pipeline <- get_pipeline ;;
      match steps pipeline !! i with
      | None => ret tt
      | Some step =>
          (* Check if all dependencies are completed *)
          if negb (areDependenciesCompleted step (steps pipeline)) then
            modify_step i (set_s_status SSkipped) ;;
            scan n' (S i)
          else
            executeStep i ;;
            (* Emit real-time updates *)
            pipeline <- get_pipeline ;;
            step <- the_step i ;;
            liftW (emit ("deployment-" +:+ deploymentId pipeline)
                     (StepUpdate (p_id pipeline) step)) ;;
            if decide (s_status step = SFailed) then
              modify_pipeline (set_p_status PFailed)
            else
              scan n' (S i)
      end
  end.

Definition executePipeline : Run unit :=
  r <- attempt (
         pipeline <- get_pipeline ;;
         scan (length (steps pipeline)) 0 ;;
         pipeline <- get_pipeline ;;
         (if decide (p_status pipeline <> PFailed) then
            modify_pipeline (set_p_status PCompleted) ;;
            (* Update deployment *)
            t <- liftW new_Date ;;
            liftW (Deployment_findByIdAndUpdate (deploymentId pipeline)
                     (fun d => set_lastDeployedAt t (set_d_status DCompleted d)))
          else
            liftW (Deployment_findByIdAndUpdate (deploymentId pipeline)
                     (set_d_status DFailed))) ;;
         t <- liftW new_Date ;;
         modify_pipeline (set_p_endTime t) ;;
         pipeline <- get_pipeline ;;
         liftW (Pipeline_save pipeline)) ;;
  match r with
  | Ok _ => ret tt
  | Throw _ =>
      modify_pipeline (set_p_status PFailed) ;;
      t <- liftW new_Date ;;
      modify_pipeline (set_p_endTime t) ;;
      pipeline <- get_pipeline ;;
      liftW (Pipeline_save pipeline) ;;
      liftW (Deployment_findByIdAndUpdate (deploymentId pipeline) (set_d_status DFailed))
  end.

(** ** PipelineOrchestrator: the facade *)

(** [this.executePipeline(pipeline).catch(...)]: the run is handed to the
    event loop and the caller goes on. *)
Definition spawn (pipeline : Pipeline) : M World unit :=
  fun w => (Ok tt, with_background (background w ++ [pipeline]) w).

(** The event loop runs the oldest pending run to its end; a rejection is
    logged and dropped. *)
Definition run_background : M World unit :=
  fun w =>
    match background w with
    | [] => (Ok tt, w)
    | pipeline :: rest =>
        let '(_, (_, w1)) := executePipeline (pipeline, with_background rest w) in
        (Ok tt, w1)
    end.

Definition startPipeline (deploymentId triggeredBy : string) : M World string :=
  pipelineId <- uuidv4 ;;
  r <- attempt (
         deployment <- Deployment_find deploymentId ;;
         match deployment with
         | None => throw ("Deployment " +:+ deploymentId +:+ " not found")
         | Some deployment =>
             (* Update deployment status *)
             let deployment := set_d_status DRunning deployment in
             Deployment_save deployment ;;
             (* Create pipeline steps based on deployment configuration *)
             steps <- buildPipelineSteps deployment ;;
             (* Create pipeline record *)
             t <- new_Date ;;
             let pipeline :=
               mkPipeline pipelineId deploymentId PRunning steps (Some t) None triggeredBy in
             Pipeline_save pipeline ;;
             (* Start pipeline execution asynchronously *)
             spawn pipeline ;;
             ret pipelineId
         end) ;;
  match r with
  | Ok pipelineId => ret pipelineId
  | Throw message => throw message
  end.

Definition getPipeline (pipelineId : string) : M World (option Pipeline) :=
  Pipeline_findOne pipelineId.

Definition cancelPipeline (pipelineId : string) : M World unit :=
  pipeline <- Pipeline_findOne pipelineId ;;
  match pipeline with
  | Some pipeline =>
      if decide (p_status pipeline = PRunning) then
        let pipeline := set_p_status PCancelled pipeline in
        t <- new_Date ;;
        let pipeline := set_p_endTime t pipeline in
        Pipeline_save pipeline ;;
        Deployment_findByIdAndUpdate (deploymentId pipeline) (set_d_status DCancelled)
      else ret tt
  | None => ret tt
  end.

(** ** The HTTP handlers next to the orchestrator *)

Record Response : Type := mkResponse {
  http_status : nat;
  success : bool;
  error : option string;
  data_pipelineId : option string
}.

(** [req.user?.email || 'unknown'] *)
Definition email_or_unknown (email : option string) : string :=
  match email with
  | Some e => if decide (e = "") then "unknown" else e
  | None => "unknown"
  end.

(** [setTimeout(callback, 5000)]; the callback closes over both documents. *)
Definition setTimeout (pipeline : Pipeline) (deployment : DeploymentConfig) : M World unit :=
  fun w => (Ok tt, with_timers (timers w ++ [(pipeline, deployment)]) w).

(** [router.post('/:id/trigger')] of the deployment routes. *)
Definition trigger_route (id : string) (email : option string) : M World Response :=
  r <- attempt (
         deployment <- Deployment_find id ;;
         match deployment with
         | None => ret (mkResponse 404 false (Some "Deployment not found") None)
         | Some deployment =>
             if decide (d_status deployment = DRunning) then
               ret (mkResponse 400 false (Some "Deployment is already running") None)
             else
               (* Create new pipeline *)
               pid <- uuidv4 ;;
               t <- new_Date ;;
               id1 <- uuidv4 ;;
               id2 <- uuidv4 ;;
               id3 <- uuidv4 ;;
               id4 <- uuidv4 ;;
               let pipeline :=
                 mkPipeline pid (d_id deployment) PPending
                   [newStep id1 "Clone Repository" "clone" [] JUndefined;
                    newStep id2 "Build Application" "build" [] JUndefined;
                    newStep id3 ("Deploy with " +:+ deploymentType deployment)
                      (deploymentType deployment) [] JUndefined;
                    newStep id4 "Send Notifications" "notify" [] JUndefined]
                   (Some t) None (email_or_unknown email) in
               Pipeline_save pipeline ;;
               (* Update deployment status *)
               t <- new_Date ;;
               let deployment := set_lastDeployedAt t (set_d_status DRunning deployment) in
               Deployment_save deployment ;;
               setTimeout pipeline deployment ;;
               ret (mkResponse 200 true None (Some (p_id pipeline)))
         end) ;;
  match r with
  | Ok response => ret response
  | Throw _ => ret (mkResponse 500 false (Some "Failed to trigger deployment") None)
  end.

(** The [pipeline.steps.map(...)] of the cancel handler. *)
Fixpoint cancel_steps (l : list PipelineStep) : M World (list PipelineStep) :=
  match l with
  | [] => ret []
  | step :: rest =>
      let status :=
        if decide (s_status step = SRunning \/ s_status step = SPending)
        then SCancelled else s_status step in
      step' <- (if decide (s_status step = SRunning) then
                  t <- new_Date ;; ret (set_s_endTime t (set_s_status status step))
                else ret (set_s_status status step)) ;;
      rest' <- cancel_steps rest ;;
      ret (step' :: rest')
  end.

(** [router.post('/details/:pipelineId/cancel')] of the pipeline routes. *)
Definition cancel_route (pipelineId : string) : M World Response :=
  r <- attempt (
         pipeline <- Pipeline_findOne pipelineId ;;
         match pipeline with
         | None => ret (mkResponse 404 false (Some "Pipeline not found") None)
         | Some pipeline =>
             if decide (p_status pipeline <> PRunning /\ p_status pipeline <> PPending) then
               ret (mkResponse 400 false
                      (Some "Cannot cancel pipeline that is not running or pending") None)
             else
               (* Update pipeline status *)
               let pipeline := set_p_status PCancelled pipeline in
               t <- new_Date ;;
               let pipeline := set_p_endTime t pipeline in
               (* Update any running steps to cancelled *)
               steps' <- cancel_steps (steps pipeline) ;;
               let pipeline := set_steps steps' pipeline in
               Pipeline_save pipeline ;;
               (* Update associated deployment status *)
               deployment <- Deployment_find (deploymentId pipeline) ;;
               match deployment with
               | Some deployment =>
                   if decide (d_status deployment = DRunning) then
                     Deployment_save (set_d_status DCancelled deployment)
                   else ret tt
               | None => ret tt
               end ;;
               emit ("deployment-" +:+ deploymentId pipeline)
                 (StatusUpdate (p_id pipeline) PCancelled) ;;
               ret (mkResponse 200 true None (Some (p_id pipeline)))
         end) ;;
  match r with
  | Ok response => ret response
  | Throw _ => ret (mkResponse 500 false (Some "Failed to cancel pipeline") None)
  end.

(** ** The other deployment handlers: read one, delete *)

(** The body of a handler's answer that carries no document. *)
Record Reply : Type := mkReply {
  reply_status : nat;
  reply_success : bool;
  reply_error : option string;
  reply_message : option string
}.

(** [Deployment.findOneAndDelete({ id })]: the document that was removed. *)
Definition Deployment_findOneAndDelete (id : string) : M World (option DeploymentConfig) :=
  fun w => (Ok (deployments w !! id), with_deployments (delete id (deployments w)) w).

(** [PipelineModel.deleteMany({ deploymentId })] *)
Definition Pipeline_deleteMany (deploymentId_ : string) : M World unit :=
  fun w =>
    (Ok tt,
     with_pipelines
       (filter (fun kp : string * Pipeline => deploymentId kp.2 <> deploymentId_)
          (pipelines w)) w).

(** [router.get('/:id')] of the deployment routes: the status code and the
    document sent with it. *)
Definition get_route (id : string) : M World (nat * option DeploymentConfig) :=
  r <- attempt (
         deployment <- Deployment_find id ;;
         match deployment with
         | None => ret (404, None)
         | Some deployment => ret (200, Some deployment)
         end) ;;
  match r with
  | Ok answer => ret answer
  | Throw _ => ret (500, None)
  end.

(** [router.delete('/:id')] of the deployment routes. *)
Definition delete_route (id : string) : M World Reply :=
  r <- attempt (
         deployment <- Deployment_findOneAndDelete id ;;
         match deployment with
         | None => ret (mkReply 404 false (Some "Deployment not found") None)
         | Some _ =>
             (* Also delete associated pipelines *)
             Pipeline_deleteMany id ;;
             ret (mkReply 200 true None (Some "Deployment deleted successfully"))
         end) ;;
  match r with
  | Ok reply => ret reply
  | Throw _ => ret (mkReply 500 false (Some "Failed to delete deployment") None)
  end.

(** ** GitHubService.extractRepoName *)

(** A JavaScript string is read as the list of its characters; the slash
    and the letters of ".git" are single characters in every encoding. *)
Definition slash : Ascii.ascii := Ascii.ascii_of_nat 47.

Definition dot_git : list Ascii.ascii := String.list_ascii_of_string ".git".

(** [repoUrl.split('/')]: the pieces between the slashes, never empty. *)
Fixpoint split_slash (s : list Ascii.ascii) : list (list Ascii.ascii) :=
  match s with
  | [] => [[]]
  | c :: rest =>
      match split_slash rest with
      | piece :: pieces =>
          if decide (c = slash) then [] :: piece :: pieces else (c :: piece) :: pieces
      | [] => [[c]]
      end
  end.

(** [([^\/]+)\.git$] tried on the text that follows a slash: all of it must
    be a name of at least one character, none a slash, and then ".git". *)
Definition match_name_git (rest : list Ascii.ascii) : option (list Ascii.ascii) :=
  let n := length rest - 4 in
  let name := take n rest in
  if decide (drop n rest = dot_git /\ name <> [] /\ slash ∉ name)
  then Some name else None.

(** [repoUrl.match(/\/([^\/]+)\.git$/)]: the pattern is tried at every
    position from the left; the answer is the group of the first match. *)
Fixpoint match_repo (s : list Ascii.ascii) : option (list Ascii.ascii) :=
  match s with
  | [] => None
  | c :: rest =>
      match (if decide (c = slash) then match_name_git rest else None) with
      | Some name => Some name
      | None => match_repo rest
      end
  end.

Definition extractRepoName_chars (repoUrl : list Ascii.ascii) : list Ascii.ascii :=
  match match_repo repoUrl with
  | Some name => name
  | None =>
      (* Fallback for URLs without .git suffix *)
      let parts := split_slash repoUrl in
      List.last parts []
  end.

Definition extractRepoName (repoUrl : string) : string :=
  String.string_of_list_ascii (extractRepoName_chars (String.list_ascii_of_string repoUrl)).


(** ** GitHubService.detectApplicationType *)

(** What the outside answers to one detection: the clone (the local path, or
    the error [cloneRepository] throws), the reading of the directory, and
    the reading and parsing of package.json. *)
Record Checkout : Type := mkCheckout {
  cloned : Result string;
  listing : Result (list string);
  package_json : Result Json
}.

(** [await this.cloneRepository(repoUrl, branch)] *)
Definition cloneRepository : M Checkout string := fun c => (cloned c, c).

(** [await fs.readdir(localPath)] *)
Definition readdir : M Checkout (list string) := fun c => (listing c, c).

(** [JSON.parse(await fs.readFile(path.join(localPath, 'package.json'), 'utf-8'))] *)
Definition parse_package_json : M Checkout Json := fun c => (package_json c, c).

(** A value in the condition of an [if]. *)
Definition truthy (j : Json) : bool :=
  match j with
  | JUndefined | JNull => false
  | JBool b => b
  | JNum n => negb (n =? 0)%Z
  | JStr s => negb (bool_decide (s = ""))
  | JArr _ | JObj _ => true
  end.

(** [j?.k] *)
Definition opt_field (k : string) (j : Json) : Json :=
  match j with
  | JUndefined | JNull => JUndefined
  | _ => json_field k j
  end.

(** [files.includes(name)] *)
Definition includes (files : list string) (name : string) : bool :=
  bool_decide (name ∈ files).

(** [packageJson.dependencies?.k || packageJson.devDependencies?.k] *)
Definition depends_or_dev (k : string) (packageJson : Json) : M Checkout bool :=
  deps <- prop "dependencies" packageJson ;;
  if truthy (opt_field k deps) then ret true
  else
    devDeps <- prop "devDependencies" packageJson ;;
    ret (truthy (opt_field k devDeps)).

Definition detectApplicationType : M Checkout string :=
  localPath <- cloneRepository ;;
  r <- attempt (
         files <- readdir ;;
         (* Check for common application indicators *)
         if includes files "package.json" then
           packageJson <- parse_package_json ;;
           react <- depends_or_dev "react" packageJson ;;
           if react then ret "react"
           else
             vue <- depends_or_dev "vue" packageJson ;;
             if vue then ret "vue"
             else
               deps <- prop "dependencies" packageJson ;;
               if truthy (opt_field "express" deps) then ret "nodejs"
               else ret "nodejs"
         else if includes files "pom.xml" || includes files "build.gradle" then
           ret "java"
         else if includes files "requirements.txt" || includes files "setup.py"
                 || includes files "Pipfile" then
           ret "python"
         else if includes files "go.mod" then ret "golang"
         else if includes files "Dockerfile" then ret "docker"
         else ret "unknown") ;;
  match r with
  | Ok type => ret type
  | Throw _ => ret "unknown"
  end.
(** * Vocabulary of the properties *)

(** ** Step sequences *)

(** The ids found at the positions [ks] of a step list. *)
Definition ids_at (l : list PipelineStep) (ks : list nat) : list string :=
  omap (fun k => s_id <$> l !! k) ks.

(** Every step depends on the step right before it, the first on [prev]. *)
Fixpoint chain_from (prev : option string) (l : list PipelineStep) : Prop :=
  match l with
  | [] => True
  | s :: rest =>
      dependencies s = from_option (fun x => [x]) [] prev /\
      chain_from (Some (s_id s)) rest
  end.

(** Two steps that differ at most in identifier and dependency identifiers. *)
Definition same_kind (s1 s2 : PipelineStep) : Prop :=
  s_type s1 = s_type s2 /\ s_name s1 = s_name s2 /\ s_status s1 = s_status s2 /\
  s_startTime s1 = s_startTime s2 /\ s_endTime s1 = s_endTime s2 /\
  logs s1 = logs s2 /\ s_config s1 = s_config s2.

(** clone, terraform-plan, terraform-apply, helm-deploy, chained. *)
Definition four_step_pipeline (l : list PipelineStep) : Prop :=
  exists s0 s1 s2 s3,
    l = [s0; s1; s2; s3] /\
    s_type s0 = "clone" /\ s_type s1 = "terraform-plan" /\
    s_type s2 = "terraform-apply" /\ s_type s3 = "helm-deploy" /\
    dependencies s0 = [] /\ dependencies s1 = [s_id s0] /\
    dependencies s2 = [s_id s1] /\ dependencies s3 = [s_id s2].

(** The steps the builder returns for [d] in world [w]. *)
Definition built (d : DeploymentConfig) (w : World) : list PipelineStep :=
  match fst (buildPipelineSteps d w) with
  | Ok l => l
  | Throw _ => []
  end.

(** ** Dependencies between the steps of a pipeline *)

(** Step [j] names the id of step [k] among its dependencies. *)
Definition direct_dep (l : list PipelineStep) (j k : nat) : Prop :=
  exists sj sk, l !! j = Some sj /\ l !! k = Some sk /\ s_id sk ∈ dependencies sj.

(** Step [j] depends on step [k], directly or through other steps. *)
Definition depends_on (l : list PipelineStep) : nat -> nat -> Prop := tc (direct_dep l).

(** Dependencies only name steps at strictly earlier positions. *)
Definition forward_deps (l : list PipelineStep) : Prop :=
  forall j k, direct_dep l j k -> k < j.

(** The same, as a property of the indexed step list that can be decided. *)
Definition forward_deps_indexed (l : list PipelineStep) : Prop :=
  Forall (fun js : nat * PipelineStep =>
            Forall (fun ks : nat * PipelineStep =>
                      s_id ks.2 ∈ dependencies js.2 -> ks.1 < js.1) (imap pair l))
         (imap pair l).

#[global] Instance forward_deps_indexed_dec l : Decision (forward_deps_indexed l).
Proof. unfold forward_deps_indexed. apply _. Defined.

(** ** One step of the runner *)

(** The step as [executeStep] leaves it right before its [try] block. *)
Definition mark_running (t : Date) (s : PipelineStep) : PipelineStep :=
  push_logs ["Starting step: " +:+ s_name s] (set_s_startTime t (set_s_status SRunning s)).

(** The [switch] of [executeStep] throws [e] for step [i] of [p], entered in
    the state in which [executeStep] enters it from world [w]. *)
Definition executor_throws (i : nat) (step : PipelineStep) (p : Pipeline) (w : World)
    (e : string) : Prop :=
  fst (runTool i (set_step i (mark_running (clock w) step) p,
                  with_clock (S (clock w)) w)) = Throw e.

(** The world after one [executeStep]: two clock reads, the tool calls
    [calls], the pipeline saved as [p']. *)
Definition after_step (p' : Pipeline) (calls : list ToolCall) (w : World) : World :=
  with_pipelines (<[p_id p' := p']> (pipelines w))
    (with_clock (S (S (clock w))) (with_invoked (invoked w ++ calls) w)).

(** Tool calls made for step [i] of pipeline [pid]. *)
Definition calls_of (pid : string) (i : nat) (calls : list ToolCall) : Prop :=
  Forall (fun c => call_pipeline c = pid /\ call_index c = i) calls.

(** No call in [calls] was made on behalf of step [j]. *)
Definition not_invoked_for (j : nat) (calls : list ToolCall) : Prop :=
  Forall (fun c => call_index c <> j) calls.

(** ** The scan and the end of a run *)

Definition done_or_skipped (s : PipelineStep) : Prop :=
  s_status s = SCompleted \/ s_status s = SSkipped.

(** How a scan that starts at position [i] relates the pipeline object and
    the world before and after it: either it visited every step from [i]
    on, or it stopped at the first step [b] whose execution failed. *)
Record scan_post (i : nat) (p : Pipeline) (w : World) (p' : Pipeline) (w' : World)
    (calls : list ToolCall) : Prop := mkScanPost {
  sp_length : length (steps p') = length (steps p);
  sp_id : p_id p' = p_id p;
  sp_deploymentId : deploymentId p' = deploymentId p;
  sp_deployments : deployments w' = deployments w;
  sp_clock : clock w <= clock w';
  sp_before : forall j, j < i -> steps p' !! j = steps p !! j;
  sp_meta : forall j s s',
      steps p !! j = Some s -> steps p' !! j = Some s' ->
      s_id s' = s_id s /\ dependencies s' = dependencies s;
  sp_invoked : invoked w' = invoked w ++ calls;
  sp_calls : Forall (fun c => call_pipeline c = p_id p /\ i <= call_index c) calls;
  sp_outcome :
    (p_status p' = p_status p /\
     forall j s, i <= j -> steps p' !! j = Some s -> done_or_skipped s) \/
    (exists b,
       i <= b /\ p_status p' = PFailed /\
       (exists s, steps p' !! b = Some s /\ s_status s = SFailed) /\
       (forall j, b < j -> steps p' !! j = steps p !! j) /\
       (forall j s, i <= j < b -> steps p' !! j = Some s -> done_or_skipped s) /\
       Forall (fun c => call_index c <= b) calls)
}.

(** The world after a run whose scan left the pipeline not failed. *)
Definition completed_world (p' : Pipeline) (w1 : World) : World :=
  with_pipelines (<[p_id p' := p']> (pipelines w1))
    (with_clock (S (S (clock w1)))
       (with_deployments
          (alter (fun d => set_lastDeployedAt (clock w1) (set_d_status DCompleted d))
             (deploymentId p') (deployments w1)) w1)).

(** The world after a run whose scan left the pipeline failed. *)
Definition failed_world (p' : Pipeline) (w1 : World) : World :=
  with_pipelines (<[p_id p' := p']> (pipelines w1))
    (with_clock (S (clock w1))
       (with_deployments
          (alter (set_d_status DFailed) (deploymentId p') (deployments w1)) w1)).

(** ** Cancellation *)

Definition terminal (st : PipelineStatus) : Prop :=
  st = PCompleted \/ st = PFailed \/ st = PCancelled.

(** What cancellation is said to do to one step. *)
Definition cancelled_from (s s' : PipelineStep) : Prop :=
  (s_status s = SRunning -> s_status s' = SCancelled /\ is_Some (s_endTime s')) /\
  (s_status s = SPending -> s_status s' = SCancelled).

(** ** Four claims as the specification words them *)

(** C1: the dependents of a failed step end skipped, without an executor
    call, and the pipeline ends failed. Stated here for the pipelines whose
    dependencies name earlier steps only, the ones the builder makes. *)
Definition C1_as_stated : Prop :=
  forall p w, forward_deps (steps p) ->
    exists p' w' calls,
      executePipeline (p, w) = (Ok tt, (p', w')) /\
      invoked w' = invoked w ++ calls /\
      forall k sk,
        steps p' !! k = Some sk -> s_status sk = SFailed ->
        p_status p' = PFailed /\
        forall j sj,
          depends_on (steps p) j k -> steps p' !! j = Some sj ->
          s_status sj = SSkipped /\ not_invoked_for j calls.

(** C2: terraform and helm sections give exactly the four chained steps,
    whatever else the configuration holds. *)
Definition C2_as_stated : Prop :=
  forall d w,
    is_Some (terraform (config d)) -> is_Some (helm (config d)) ->
    exists l, fst (buildPipelineSteps d w) = Ok l /\ four_step_pipeline l.




(** C5: cancel on a terminal pipeline raises an error and changes neither
    store. *)
Definition C5_as_stated : Prop :=
  forall w pid p,
    pipelines w !! pid = Some p -> p_id p = pid -> terminal (p_status p) ->
    exists e w',
      cancelPipeline pid w = (Throw e, w') /\
      pipelines w' = pipelines w /\ deployments w' = deployments w.

(** ** Sample data *)

Definition sample_ids (n : nat) : string :=
  match n with
  | 0 => "u0" | 1 => "u1" | 2 => "u2" | 3 => "u3" | 4 => "u4" | 5 => "u5"
  | 6 => "u6" | 7 => "u7" | 8 => "u8" | _ => "u9"
  end.

Definition sample_deployment (st : DeploymentStatus)
    (tf h a : option JObject) : DeploymentConfig :=
  mkDeployment "d1" "shop" "https://github.com/acme/shop.git" "main" "acme-dev"
    "dev-cluster" "shop" "hybrid" st None (mkConfigSections tf h a).

Definition tf_section : JObject := [("workspaceDir", JStr "terraform")].
Definition helm_section : JObject := [("chartPath", JStr "helm/shop"); ("release", JStr "shop")].
Definition ansible_section : JObject := [("playbookPath", JStr "site.yml")].

Definition all_tools_succeed : nat -> Invocation -> Outcome :=
  fun _ _ => Returns ["ok"].

(** The [n]-th tool call is rejected, all others succeed. *)
Definition nth_tool_fails (n : nat) : nat -> Invocation -> Outcome :=
  fun k _ => if decide (k = n) then Rejects "exit status 1" else Returns ["ok"].

(** A world at clock 100 holding the given documents. *)
Definition sample_world (ds : list DeploymentConfig) (ps : list Pipeline)
    (tl : nat -> Invocation -> Outcome) : World :=
  mkWorld (list_to_map ((fun d => (d_id d, d)) <$> ds))
    (list_to_map ((fun p => (p_id p, p)) <$> ps))
    100 sample_ids 0 tl [] [] [] [].

Definition sample_pipeline (st : PipelineStatus) (l : list PipelineStep) : Pipeline :=
  mkPipeline "p1" "d1" st l (Some 99) None "alice".

(** A deployment with a helm section only, already marked running. *)
Definition helm_deployment : DeploymentConfig :=
  sample_deployment DRunning None (Some helm_section) None.

(** A deployment with terraform and helm sections, not yet triggered. *)
Definition hybrid_deployment : DeploymentConfig :=
  sample_deployment DPending (Some tf_section) (Some helm_section) None.

Definition all_succeed_world : World :=
  sample_world [helm_deployment] [] all_tools_succeed.

(** A world whose first tool call is rejected. *)
Definition clone_fails_world : World :=
  sample_world [helm_deployment] [] (nth_tool_fails 0).

(** A world whose third tool call is rejected. *)
Definition apply_fails_world : World :=
  sample_world [hybrid_deployment] [] (nth_tool_fails 2).

(** The pipeline built for [helm_deployment]: clone, then helm-deploy. *)
Definition helm_pipeline : Pipeline :=
  sample_pipeline PRunning (built helm_deployment clone_fails_world).

Definition plan_step : PipelineStep :=
  newStep "s1" "Terraform Plan" "terraform-plan" [] (JObj tf_section).


(** A running pipeline in the middle of its second step. *)
Definition running_pipeline : Pipeline :=
  sample_pipeline PRunning
    [mkStep "s1" "Clone Repository" "clone" SCompleted (Some 90) (Some 91)
       ["Starting step: Clone Repository"] [] JUndefined;
     mkStep "s2" "Helm Deploy" "helm-deploy" SRunning (Some 92) None
       ["Starting step: Helm Deploy"] ["s1"] (JObj helm_section);
     newStep "s3" "Ansible Configuration" "ansible-run" ["s2"] (JObj ansible_section)].

Definition completed_pipeline : Pipeline :=
  sample_pipeline PCompleted
    [mkStep "s1" "Clone Repository" "clone" SCompleted (Some 90) (Some 91)
       ["Starting step: Clone Repository"] [] JUndefined].

Definition world_with (p : Pipeline) : World :=
  sample_world [helm_deployment] [p] all_tools_succeed.

(** The two refusals and the success of the cancel handler. *)
Definition cancel_refused : Response :=
  mkResponse 400 false (Some "Cannot cancel pipeline that is not running or pending") None.


(** The step statuses of the pipeline stored under [pid]. *)
Definition stored_statuses (pid : string) (w : World) : list PipelineStepStatus :=
  from_option (fun p => s_status <$> steps p) [] (pipelines w !! pid).

(** ** What a run does to each step *)

(** The fields of a step that no part of the runner assigns. *)
Definition same_identity (s s' : PipelineStep) : Prop :=
  s_id s' = s_id s /\ s_name s' = s_name s /\ s_type s' = s_type s /\
  dependencies s' = dependencies s /\ s_config s' = s_config s.

(** [s'] is [s] after one [executeStep]. *)
Definition executed_from (s s' : PipelineStep) : Prop :=
  same_identity s s' /\
  (s_status s' = SCompleted \/ s_status s' = SFailed) /\
  is_Some (s_startTime s') /\ is_Some (s_endTime s') /\
  exists lines, logs s' = logs s ++ ("Starting step: " +:+ s_name s) :: lines.

(** [s'] is [s] as the scan left it alone or only marked it skipped. *)
Definition not_executed_from (s s' : PipelineStep) : Prop :=
  s' = s \/ s' = set_s_status SSkipped s.

(** Step positions in strictly increasing order. *)
Fixpoint increasing (l : list nat) : Prop :=
  match l with
  | [] => True
  | x :: rest => Forall (fun y => x < y) rest /\ increasing rest
  end.

(** What a scan from position [i] does beyond [scan_post]: how each step
    ends, in which order tools are called, and what it leaves alone. *)
Record scan_trace (i : nat) (p : Pipeline) (w : World) (p' : Pipeline) (w' : World)
    (calls : list ToolCall) : Prop := mkScanTrace {
  st_visit : forall j s s',
      steps p !! j = Some s -> steps p' !! j = Some s' ->
      (not_executed_from s s' /\ not_invoked_for j calls) \/ executed_from s s';
  st_increasing : increasing (call_index <$> calls);
  st_in_range : Forall (fun c => call_index c < length (steps p)) calls;
  st_header : p_startTime p' = p_startTime p /\ triggeredBy p' = triggeredBy p;
  st_pipelines : forall k, k <> p_id p -> pipelines w' !! k = pipelines w !! k;
  st_queue : background w' = background w /\ timers w' = timers w;
  st_oracles : tools w' = tools w /\ uuid_src w' = uuid_src w /\ uuid_ctr w' = uuid_ctr w;
  st_events : exists events,
      emitted w' = emitted w ++ events /\
      Forall (fun e => room e = "deployment-" +:+ deploymentId p) events
}.

(** The pipeline [pj] is [p] as the scan found it on reaching position [j],
    and [p'] is the pipeline after the scan. *)
Record reached (p pj p' : Pipeline) (j : nat) : Prop := mkReached {
  rc_length : length (steps pj) = length (steps p);
  rc_ids : forall k s,
      steps p !! k = Some s -> exists s2, steps pj !! k = Some s2 /\ s_id s2 = s_id s;
  rc_here : steps pj !! j = steps p !! j;
  rc_before : forall k, k < j -> steps p' !! k = steps pj !! k
}.

(** ** Runs in which nothing goes wrong *)

(** Every tool call is answered with output. *)
Definition tools_succeed (w : World) : Prop :=
  forall n op, exists out, tools w n op = Returns out.

(** A property read [j.k] does not throw. *)
Definition has_properties (j : Json) : Prop :=
  match j with
  | JUndefined | JNull => False
  | _ => True
  end.

#[global] Instance has_properties_dec j : Decision (has_properties j).
Proof. destruct j; cbn; apply _. Defined.

(** The [switch] of [executeStep] knows the type of the step, and a clone
    step has a configuration to read its two properties from. *)
Definition runnable (s : PipelineStep) : Prop :=
  s_type s ∈ ["clone"; "terraform-plan"; "terraform-apply"; "helm-deploy"; "ansible-run"] /\
  (s_type s = "clone" -> has_properties (s_config s)).

(** Every dependency names a step at a strictly earlier position. *)
Definition backward_ids (l : list PipelineStep) : Prop :=
  forall j sj dep,
    l !! j = Some sj -> dep ∈ dependencies sj ->
    exists k sk, k < j /\ l !! k = Some sk /\ s_id sk = dep.

#[global] Instance runnable_dec s : Decision (runnable s).
Proof. unfold runnable. apply _. Defined.

(** ** More sample data *)

(** A deployment with all three sections, not yet triggered. *)
Definition full_deployment : DeploymentConfig :=
  sample_deployment DPending (Some tf_section) (Some helm_section) (Some ansible_section).

Definition full_world : World :=
  sample_world [full_deployment] [] all_tools_succeed.

(** A pipeline whose second step has a type the runner does not know and
    whose third step names a dependency no step carries. *)
Definition odd_pipeline : Pipeline :=
  sample_pipeline PRunning
    [newStep "s1" "Plan" "terraform-plan" [] (JObj tf_section);
     newStep "s2" "Smoke test" "post-deploy" [] JUndefined;
     newStep "s3" "Helm Deploy" "helm-deploy" ["s9"] (JObj helm_section)].

(** A second pipeline of the same deployment, and one of another. *)
Definition sibling_pipeline : Pipeline :=
  mkPipeline "p2" "d1" PCompleted [] (Some 50) (Some 60) "bob".

Definition foreign_pipeline : Pipeline :=
  mkPipeline "p3" "d2" PRunning [] (Some 70) None "carol".

Definition other_deployment : DeploymentConfig :=
  mkDeployment "d2" "billing" "https://github.com/acme/billing" "main" "acme-dev"
    "dev-cluster" "billing" "helm" DPending None (mkConfigSections None None None).

Definition busy_world : World :=
  sample_world [helm_deployment; other_deployment]
    [running_pipeline; sibling_pipeline; foreign_pipeline] all_tools_succeed.


(** Something fails after the clone: the directory cannot be read, or a
    listed package.json cannot be read or parsed, or holds no value to read
    properties from. *)
Definition detection_fails (c : Checkout) : Prop :=
  match listing c with
  | Throw _ => True
  | Ok files =>
      "package.json" ∈ files /\
      match package_json c with
      | Throw _ => True
      | Ok packageJson => ~ has_properties packageJson
      end
  end.

(** The answers [detectApplicationType] can give. *)
Definition application_types : list string :=
  ["react"; "vue"; "nodejs"; "java"; "python"; "golang"; "docker"; "unknown"].

(** A checkout of a Java project that also carries a package.json. *)
Definition mixed_checkout (package : Result Json) : Checkout :=
  mkCheckout (Ok "/tmp/deployments/shop")
    (Ok ["README.md"; "pom.xml"; "package.json"; "Dockerfile"]) package.

Definition react_package : Json :=
  JObj [("name", JStr "shop");
        ("dependencies", JObj [("express", JStr "^4.18.0")]);
        ("devDependencies", JObj [("react", JStr "^18.2.0"); ("vue", JStr "^3.3.0")])].
(** ** Proof tactics *)

Arguments obj_set : simpl never.
Arguments set_step : simpl never.

Ltac build_cases d :=
  destruct d as [? ? ? ? ? ? ? ? ? ? [[?|] [?|] [?|]]]; cbn.

Ltac world_eq :=
  unfold with_invoked, with_clock, with_pipelines; cbn; rewrite ?app_nil_r; reflexivity.

(** * Properties *)

(** ** The builder *)

Lemma chain_from_lookup prev (l : list PipelineStep) i s :
  chain_from prev l -> l !! i = Some s ->
  dependencies s =
    match i with
    | 0 => from_option (fun x => [x]) [] prev
    | S k => ids_at l [k]
    end /\
  (forall k, i = S k -> is_Some (l !! k)).
Proof.
  revert prev i. induction l as [|a l IH]; intros prev i Hc Hl; [done|].
  destruct Hc as [Ha Hrest]. destruct i as [|i]; simplify_eq/=.
  - split; [done|]. intros k Hk; discriminate.
  - destruct (IH _ _ Hrest Hl) as [Hd Hk]. split.
    + rewrite Hd. destruct i as [|i]; [done|]. reflexivity.
    + intros k [= <-]. destruct i as [|i]; [by eexists|]. by apply (Hk i).
Qed.

Lemma buildPipelineSteps_chain d w :
  exists l,
    buildPipelineSteps d w = (Ok l, with_uuid_ctr (length l + uuid_ctr w) w) /\
    chain_from None l.
Proof.
  build_cases d; eexists;
    (split; [apply (f_equal2 pair); [reflexivity | unfold with_uuid_ctr; cbn; reflexivity] |]);
    cbn; repeat split.
Qed.

Lemma buildPipelineSteps_same_kind d w1 w2 :
  exists l1 l2,
    fst (buildPipelineSteps d w1) = Ok l1 /\
    fst (buildPipelineSteps d w2) = Ok l2 /\
    Forall2 same_kind l1 l2.
Proof.
  build_cases d; do 2 eexists; (split; [reflexivity|]); (split; [reflexivity|]);
    repeat (constructor; [by repeat split|]); constructor.
Qed.

Lemma ids_at_singleton (l : list PipelineStep) k p :
  l !! k = Some p -> ids_at l [k] = [s_id p].
Proof. intros H. unfold ids_at. cbn. by rewrite H. Qed.

(** C2, counterexample: a deployment with terraform, helm and ansible
    sections is built into five steps, not four. *)
Lemma C2_five_steps_with_ansible : ~ C2_as_stated.
Proof.
  intros H.
  destruct (H (sample_deployment DPending (Some tf_section) (Some helm_section)
                 (Some ansible_section))
              (sample_world [] [] all_tools_succeed)) as (l & Hl & s0 & s1 & s2 & s3 & -> & _);
    [by eexists | by eexists |].
  vm_compute in Hl. discriminate Hl.
Qed.

(** C2, amended: with terraform and helm sections the built sequence begins
    with clone, terraform-plan, terraform-apply, helm-deploy, the clone step
    without dependencies and each later one depending exactly on its
    predecessor; these four are all the steps when there is no ansible
    section, and with an ansible section one ansible-run step depending on
    helm-deploy follows. *)
Theorem C2_terraform_helm_steps d w :
  is_Some (terraform (config d)) -> is_Some (helm (config d)) ->
  exists l rest,
    fst (buildPipelineSteps d w) = Ok (l ++ rest) /\
    four_step_pipeline l /\
    (ansible (config d) = None -> rest = []) /\
    (forall a, ansible (config d) = Some a ->
       exists s4, rest = [s4] /\ s_type s4 = "ansible-run" /\
                  dependencies s4 = ids_at l [3]).
Proof.
  intros [tf Htf] [h Hh].
  destruct d as [? ? ? ? ? ? ? ? ? ? [tf' h' [a|]]]; cbn in Htf, Hh; subst tf' h'; cbn.
  - eexists [_; _; _; _], [_]. split; [reflexivity|]. split.
    + do 4 eexists. by repeat split.
    + split; [done|]. intros ? _. eexists. by repeat split.
  - eexists [_; _; _; _], []. split; [reflexivity|]. split.
    + do 4 eexists. by repeat split.
    + split; [done|]. intros ? [=].
Qed.

(** C2, witness: a deployment with terraform and helm sections and no
    ansible section. *)
Lemma C2_terraform_helm_steps_witness :
  exists l rest,
    fst (buildPipelineSteps
           (sample_deployment DPending (Some tf_section) (Some helm_section) None)
           (sample_world [] [] all_tools_succeed)) = Ok (l ++ rest) /\
    four_step_pipeline l /\ rest = [].
Proof.
  destruct (C2_terraform_helm_steps
              (sample_deployment DPending (Some tf_section) (Some helm_section) None)
              (sample_world [] [] all_tools_succeed))
    as (l & rest & H1 & H2 & H3 & _); [by eexists | by eexists |].
  exists l, rest. split; [exact H1|]. split; [exact H2|]. apply H3. reflexivity.
Defined.

(** C8: two builds of one deployment record, from any two states of the
    identifier source, give sequences of equal length whose steps agree
    position by position in type, name and all other fields except
    identifiers, and whose dependencies are the identifiers found at the
    same earlier positions of the respective sequence. *)
Theorem C8_build_twice_same_shape d w1 w2 :
  exists l1 l2,
    fst (buildPipelineSteps d w1) = Ok l1 /\
    fst (buildPipelineSteps d w2) = Ok l2 /\
    length l1 = length l2 /\
    forall i s1 s2,
      l1 !! i = Some s1 -> l2 !! i = Some s2 ->
      same_kind s1 s2 /\
      exists ks, Forall (fun k => k < i) ks /\
                 dependencies s1 = ids_at l1 ks /\
                 dependencies s2 = ids_at l2 ks.
Proof.
  destruct (buildPipelineSteps_same_kind d w1 w2) as (l1 & l2 & H1 & H2 & HF).
  destruct (buildPipelineSteps_chain d w1) as (l1' & E1 & C1).
  destruct (buildPipelineSteps_chain d w2) as (l2' & E2 & C2).
  rewrite E1 in H1. rewrite E2 in H2. cbn in H1, H2. simplify_eq.
  exists l1, l2. split; [by rewrite E1|]. split; [by rewrite E2|].
  split; [by eapply Forall2_length|].
  intros i s1 s2 L1 L2. split; [by eapply Forall2_lookup_lr|].
  destruct (chain_from_lookup _ _ _ _ C1 L1) as [D1 _].
  destruct (chain_from_lookup _ _ _ _ C2 L2) as [D2 _].
  destruct i as [|k].
  - exists []. by repeat split.
  - exists [k]. split; [repeat constructor; lia|]. by split.
Qed.

(** C9: in every built sequence each step has at most one dependency, every
    dependency is the id of a step at a strictly earlier position, and the
    dependencies form a single chain: none for the first step, exactly the
    immediate predecessor for every other step. *)
Theorem C9_built_dependencies_linear d w :
  exists l,
    fst (buildPipelineSteps d w) = Ok l /\
    forall i s,
      l !! i = Some s ->
      length (dependencies s) <= 1 /\
      (forall dep, dep ∈ dependencies s ->
         exists k sk, k < i /\ l !! k = Some sk /\ s_id sk = dep) /\
      (i = 0 -> dependencies s = []) /\
      (forall k, i = S k -> exists prev, l !! k = Some prev /\ dependencies s = [s_id prev]).
Proof.
  destruct (buildPipelineSteps_chain d w) as (l & E & C).
  exists l. split; [by rewrite E|].
  intros i s L. destruct (chain_from_lookup _ _ _ _ C L) as [D Hk].
  destruct i as [|k].
  - cbn in D. rewrite D. split; [cbn; lia|]. split; [by intros dep ?%elem_of_nil|].
    split; [done|]. intros k [=].
  - destruct (Hk k eq_refl) as [prev Hprev].
    rewrite (ids_at_singleton _ _ _ Hprev) in D. rewrite D.
    split; [cbn; lia|]. split.
    + intros dep ->%list_elem_of_singleton. exists k, prev. split; [lia|]. done.
    + split; [intros [=]|]. intros k' [= <-]. by exists prev.
Qed.

(** ** Stepping through runner code *)

Lemma set_step_same i s p : steps p !! i = Some s -> set_step i s p = p.
Proof.
  intros H. unfold set_step, set_steps. rewrite list_insert_id by done. by destruct p.
Qed.

Lemma steps_set_step_eq i s p :
  i < length (steps p) -> steps (set_step i s p) !! i = Some s.
Proof. intros H. unfold set_step. cbn. by apply list_lookup_insert_eq. Qed.

Lemma steps_set_step_ne i j s p :
  i <> j -> steps (set_step i s p) !! j = steps p !! j.
Proof. intros H. unfold set_step. cbn. by apply list_lookup_insert_ne. Qed.

Lemma length_set_step i s p : length (steps (set_step i s p)) = length (steps p).
Proof. unfold set_step. cbn. apply length_insert. Qed.

Lemma push_logs_nil s : push_logs [] s = s.
Proof. destruct s. unfold push_logs. cbn. by rewrite app_nil_r. Qed.

Lemma alter_insert_here {A} (f : A -> A) (l : list A) i s :
  i < length l -> alter f i (<[i := s]> l) = <[i := f s]> l.
Proof.
  intros H. apply list_eq. intros j. destruct (decide (i = j)) as [<-|Hne].
  - rewrite list_lookup_alter_eq, !list_lookup_insert_eq by done. done.
  - rewrite list_lookup_alter_ne, !list_lookup_insert_ne by done. done.
Qed.

Lemma bind_modify_step {B} (k : unit -> Run B) i f s p0 w :
  i < length (steps p0) ->
  bind (modify_step i f) k (set_step i s p0, w) = k tt (set_step i (f s) p0, w).
Proof.
  intros H. unfold bind, modify_step, modify_pipeline, set_step, set_steps. cbn.
  by rewrite alter_insert_here.
Qed.

Lemma bind_the_step {B} (k : PipelineStep -> Run B) i s p0 w :
  i < length (steps p0) ->
  bind (the_step i) k (set_step i s p0, w) = k s (set_step i s p0, w).
Proof.
  intros H. unfold the_step, bind, get_pipeline, step_at.
  by rewrite steps_set_step_eq.
Qed.

Lemma bind_get_pipeline {B} (k : Pipeline -> Run B) p w :
  bind get_pipeline k (p, w) = k p (p, w).
Proof. reflexivity. Qed.

Lemma bind_new_Date {B} (k : Date -> Run B) p w :
  bind (liftW new_Date) k (p, w) = k (clock w) (p, with_clock (S (clock w)) w).
Proof. reflexivity. Qed.

Lemma bind_bind {S A B C} (m : M S A) (f : A -> M S B) (g : B -> M S C) s :
  bind (bind m f) g s = bind m (fun a => bind (f a) g) s.
Proof. unfold bind. by destruct (m s) as [[a|e] s1]. Qed.

Lemma with_invoked_nil w : with_invoked (invoked w ++ []) w = w.
Proof. destruct w. world_eq. Qed.

Lemma prop_cases {S} k j :
  (exists e, @prop S k j = throw e) \/ @prop S k j = ret (json_field k j).
Proof. destruct j; cbn; eauto. Qed.

Lemma call_tool_spec {B} (k : list string -> Run B) pid i op p w :
  let w1 := with_invoked (invoked w ++ [mkToolCall pid i op]) w in
  (exists out, bind (liftW (call_tool pid i op)) k (p, w) = k out (p, w1)) \/
  (exists e, bind (liftW (call_tool pid i op)) k (p, w) = (Throw e, (p, w1))).
Proof.
  unfold bind, liftW, call_tool. cbn.
  destruct (tools w _ _) as [out|e]; [left|right]; by eexists.
Qed.

Lemma runTool_spec i s p0 w :
  i < length (steps p0) ->
  exists calls,
    calls_of (p_id p0) i calls /\
    ((exists out, runTool i (set_step i s p0, w) =
                    (Ok tt, (set_step i (push_logs out s) p0,
                             with_invoked (invoked w ++ calls) w))) \/
     (exists e, runTool i (set_step i s p0, w) =
                  (Throw e, (set_step i s p0, with_invoked (invoked w ++ calls) w)))).
Proof.
  intros Hi. unfold runTool. rewrite bind_the_step by done.
  rewrite bind_get_pipeline.
  assert (Hone : forall op, calls_of (p_id p0) i [mkToolCall (p_id p0) i op])
    by (intros op; by repeat constructor).
  assert (Hthrow : forall e,
             exists calls, calls_of (p_id p0) i calls /\
               ((exists out, (Throw e, (set_step i s p0, w)) =
                    (Ok tt, (set_step i (push_logs out s) p0,
                             with_invoked (invoked w ++ calls) w))) \/
                (exists e', (@Throw unit e, (set_step i s p0, w)) =
                    (Throw e', (set_step i s p0, with_invoked (invoked w ++ calls) w))))).
  { intros e. exists []. split; [constructor|]. right. exists e.
    by rewrite with_invoked_nil. }
  assert (Hlog : forall op,
             exists calls, calls_of (p_id p0) i calls /\
               ((exists out,
                   bind (liftW (call_tool (p_id p0) i op))
                     (fun out => modify_step i (push_logs out)) (set_step i s p0, w) =
                    (Ok tt, (set_step i (push_logs out s) p0,
                             with_invoked (invoked w ++ calls) w))) \/
                (exists e',
                   bind (liftW (call_tool (p_id p0) i op))
                     (fun out => modify_step i (push_logs out)) (set_step i s p0, w) =
                    (Throw e', (set_step i s p0, with_invoked (invoked w ++ calls) w))))).
  { intros op. eexists. split; [apply (Hone op)|].
    destruct (call_tool_spec (fun out => modify_step i (push_logs out))
                (p_id p0) i op (set_step i s p0) w) as [[out E]|[e E]];
      rewrite E; [left|right]; eexists; [|reflexivity].
    unfold modify_step, modify_pipeline, set_step, set_steps. cbn.
    by rewrite alter_insert_here. }
  repeat case_decide; try apply Hlog.
  - destruct (@prop_cases (Pipeline * World) "repository" (s_config s)) as [[e ->]| ->];
      [apply Hthrow|].
    destruct (@prop_cases (Pipeline * World) "branch" (s_config s)) as [[e ->]| ->];
      [apply Hthrow|].
    unfold bind at 1 2. cbn [ret].
    eexists. split; [apply Hone|].
    match goal with
    | |- context [bind (liftW (call_tool ?pid i ?op)) ?k _] =>
        destruct (call_tool_spec k pid i op (set_step i s p0) w) as [[out E]|[e E]]
    end; rewrite E; [left; exists []; by rewrite push_logs_nil | right; by eexists].
  - apply Hthrow.
Qed.

Lemma bind_ok {S A B} (m : M S A) (k : A -> M S B) s a s1 :
  m s = (Ok a, s1) -> bind m k s = k a s1.
Proof. intros H. unfold bind. by rewrite H. Qed.

Lemma bind_throw {S A B} (m : M S A) (k : A -> M S B) s e s1 :
  m s = (Throw e, s1) -> bind m k s = (Throw e, s1).
Proof. intros H. unfold bind. by rewrite H. Qed.

Lemma bind_ret {S A B} (a : A) (k : A -> M S B) s : bind (ret a) k s = k a s.
Proof. reflexivity. Qed.

Lemma bind_attempt_ok {S A B} (m : M S A) (k : Result A -> M S B) s a s1 :
  m s = (Ok a, s1) -> bind (attempt m) k s = k (Ok a) s1.
Proof. intros H. unfold bind, attempt. by rewrite H. Qed.

Lemma bind_attempt_throw {S A B} (m : M S A) (k : Result A -> M S B) s e s1 :
  m s = (Throw e, s1) -> bind (attempt m) k s = k (Throw e) s1.
Proof. intros H. unfold bind, attempt. by rewrite H. Qed.

Lemma modify_step_here i f s p0 w :
  i < length (steps p0) ->
  modify_step i f (set_step i s p0, w) = (Ok tt, (set_step i (f s) p0, w)).
Proof.
  intros H. unfold modify_step, modify_pipeline, set_step, set_steps. cbn.
  by rewrite alter_insert_here.
Qed.

Lemma save_here p w :
  liftW (Pipeline_save p) (p, w) =
    (Ok tt, (p, with_pipelines (<[p_id p := p]> (pipelines w)) w)).
Proof. reflexivity. Qed.

(** What one [executeStep] does to the step, the pipeline and the world. *)
Lemma executeStep_spec i step p w :
  steps p !! i = Some step ->
  exists step' calls,
    executeStep i (p, w) =
      (Ok tt, (set_step i step' p, after_step (set_step i step' p) calls w)) /\
    calls_of (p_id p) i calls /\
    s_id step' = s_id step /\ s_name step' = s_name step /\
    s_type step' = s_type step /\ dependencies step' = dependencies step /\
    s_config step' = s_config step /\
    s_startTime step' = Some (clock w) /\ s_endTime step' = Some (S (clock w)) /\
    let entry := (set_step i (mark_running (clock w) step) p, with_clock (S (clock w)) w) in
    ((s_status step' = SCompleted /\ fst (runTool i entry) = Ok tt /\
      exists out, logs step' = logs step ++ ["Starting step: " +:+ s_name step] ++ out ++
                                 ["Step completed successfully: " +:+ s_name step]) \/
     (s_status step' = SFailed /\
      exists e, fst (runTool i entry) = Throw e /\
                logs step' = logs step ++ ["Starting step: " +:+ s_name step;
                                           "Step failed: " +:+ e])).
Proof.
  intros Hstep.
  assert (Hi : i < length (steps p)) by (by eapply lookup_lt_Some).
  replace (executeStep i (p, w)) with (executeStep i (set_step i step p, w))
    by (by rewrite set_step_same).
  unfold executeStep.
  rewrite bind_modify_step, bind_new_Date, bind_modify_step, bind_the_step,
    bind_modify_step by done.
  cbn [s_name set_s_startTime set_s_status].
  fold (mark_running (clock w) step).
  destruct (runTool_spec i (mark_running (clock w) step) p (with_clock (S (clock w)) w) Hi)
    as (calls & Hcalls & [[out E]|[e E]]).
  - erewrite bind_attempt_ok; cycle 1.
    { rewrite (bind_ok _ _ _ _ _ E), bind_modify_step by done.
      by apply modify_step_here. }
    rewrite bind_ret, bind_new_Date, bind_modify_step, bind_get_pipeline, save_here by done.
    eexists _, calls. split.
    { unfold after_step. apply (f_equal2 pair); [done|].
      apply (f_equal2 pair); [done|]. world_eq. }
    split; [done|]. repeat (split; [reflexivity|]).
    left. split; [reflexivity|]. split; [by rewrite E|].
    exists out. cbn. by rewrite <- !app_assoc.
  - erewrite bind_attempt_throw; cycle 1.
    { by rewrite (bind_throw _ _ _ _ _ E). }
    rewrite bind_bind, bind_modify_step, bind_modify_step by done.
    rewrite bind_new_Date, bind_modify_step, bind_get_pipeline, save_here by done.
    eexists _, calls. split.
    { unfold after_step. apply (f_equal2 pair); [done|].
      apply (f_equal2 pair); [done|]. world_eq. }
    split; [done|]. repeat (split; [reflexivity|]).
    right. split; [reflexivity|]. exists e. split; [by rewrite E|].
    cbn. by rewrite <- !app_assoc.
Qed.

(** ** The scan of [executePipeline] *)

Lemma bind_emit {B} (k : unit -> Run B) r u p w :
  bind (liftW (emit r u)) k (p, w) = k tt (p, with_emitted (emitted w ++ [mkEvent r u]) w).
Proof. reflexivity. Qed.

Lemma set_step_meta i s1 step p j s s' :
  steps p !! i = Some step ->
  s_id s1 = s_id step -> dependencies s1 = dependencies step ->
  steps p !! j = Some s -> steps (set_step i s1 p) !! j = Some s' ->
  s_id s' = s_id s /\ dependencies s' = dependencies s.
Proof.
  intros Hstep Hid Hdep Hs Hs'.
  assert (Hi : i < length (steps p)) by (by eapply lookup_lt_Some).
  destruct (decide (i = j)) as [<-|Hne].
  - rewrite steps_set_step_eq in Hs' by done. by simplify_eq.
  - rewrite steps_set_step_ne in Hs' by done. by simplify_eq.
Qed.

(** One visited step [s1] at position [i], then the rest of the scan. *)
Lemma scan_post_cons i step s1 p w w1 p' w' calls1 calls2 :
  steps p !! i = Some step ->
  s_id s1 = s_id step -> dependencies s1 = dependencies step ->
  done_or_skipped s1 ->
  deployments w1 = deployments w -> clock w <= clock w1 ->
  invoked w1 = invoked w ++ calls1 -> calls_of (p_id p) i calls1 ->
  scan_post (S i) (set_step i s1 p) w1 p' w' calls2 ->
  scan_post i p w p' w' (calls1 ++ calls2).
Proof.
  intros Hstep Hid Hdep Hs1 Hd Hc Hinv Hcalls1 [].
  assert (Hi : i < length (steps p)) by (by eapply lookup_lt_Some).
  assert (Hat : steps p' !! i = Some s1).
  { rewrite sp_before0 by lia. by apply steps_set_step_eq. }
  split.
  - by rewrite sp_length0, length_set_step.
  - done.
  - done.
  - congruence.
  - lia.
  - intros j Hj. rewrite sp_before0 by lia. apply steps_set_step_ne. lia.
  - intros j s s' Hs Hs'.
    destruct (steps (set_step i s1 p) !! j) as [sm|] eqn:Hm.
    + destruct (sp_meta0 j sm s' Hm Hs') as [-> ->].
      exact (set_step_meta i s1 step p j s sm Hstep Hid Hdep Hs Hm).
    + apply lookup_ge_None in Hm. rewrite length_set_step in Hm.
      apply lookup_lt_Some in Hs. lia.
  - rewrite sp_invoked0, Hinv. by rewrite app_assoc.
  - apply Forall_app. split.
    + eapply Forall_impl; [exact Hcalls1|]. cbn. intros c [-> ->]. done.
    + eapply Forall_impl; [exact sp_calls0|]. cbn. intros c [-> ?]. split; [done|lia].
  - destruct sp_outcome0 as [[Hst Hall]|(b & Hb & Hst & Hfail & Hafter & Hmid & Hle)].
    + left. split; [done|]. intros j s Hj Hs.
      destruct (decide (j = i)) as [->|Hne]; [by simplify_eq|].
      apply (Hall j); [lia|done].
    + right. exists b. split; [lia|]. split; [done|]. split; [done|]. split.
      * intros j Hj. rewrite Hafter by done. apply steps_set_step_ne. lia.
      * split.
        -- intros j s Hj Hs.
           destruct (decide (j = i)) as [->|Hne]; [by simplify_eq|].
           apply (Hmid j); [lia|done].
        -- apply Forall_app. split; [|done].
           eapply Forall_impl; [exact Hcalls1|]. cbn. intros c [_ ->]. lia.
Qed.

Lemma scan_post_end i p w :
  length (steps p) <= i -> scan_post i p w p w [].
Proof.
  intros Hlen. split; try done.
  - intros j s s' Hs Hs'. by simplify_eq.
  - by rewrite app_nil_r.
  - left. split; [done|]. intros j s Hj Hs. apply lookup_lt_Some in Hs. lia.
Qed.

(** The scan stops at position [i], whose step [s1] failed. *)
Lemma scan_post_break i step s1 p w w1 calls :
  steps p !! i = Some step ->
  s_id s1 = s_id step -> dependencies s1 = dependencies step ->
  s_status s1 = SFailed ->
  deployments w1 = deployments w -> clock w <= clock w1 ->
  invoked w1 = invoked w ++ calls -> calls_of (p_id p) i calls ->
  scan_post i p w (set_p_status PFailed (set_step i s1 p)) w1 calls.
Proof.
  intros Hstep Hid Hdep Hs1 Hd Hc Hinv Hcalls.
  assert (Hi : i < length (steps p)) by (by eapply lookup_lt_Some).
  split; try done.
  - cbn. apply length_insert.
  - intros j Hj. apply (steps_set_step_ne i j s1 p). lia.
  - intros j s s' Hs Hs'.
    exact (set_step_meta i s1 step p j s s' Hstep Hid Hdep Hs Hs').
  - eapply Forall_impl; [exact Hcalls|]. cbn. intros c [-> ->]. done.
  - right. exists i. split; [done|]. split; [done|]. split.
    + exists s1. split; [|done]. by apply (steps_set_step_eq i s1 p).
    + split; [intros j Hj; apply (steps_set_step_ne i j s1 p); lia|].
      split; [intros j s Hj; lia|].
      eapply Forall_impl; [exact Hcalls|]. cbn. intros c [_ ->]. done.
Qed.

Lemma scan_spec n :
  forall i p w,
    length (steps p) <= i + n ->
    exists p' w' calls,
      scan n i (p, w) = (Ok tt, (p', w')) /\ scan_post i p w p' w' calls.
Proof.
  induction n as [|n IH]; intros i p w Hlen.
  { exists p, w, []. split; [done|]. apply scan_post_end. lia. }
  cbn [scan]. rewrite bind_get_pipeline.
  destruct (steps p !! i) as [step|] eqn:Hstep; cycle 1.
  { exists p, w, []. split; [done|]. apply scan_post_end. by apply lookup_ge_None. }
  assert (Hi : i < length (steps p)) by (by eapply lookup_lt_Some).
  destruct (areDependenciesCompleted step (steps p)) eqn:Hdeps; cbn [negb].
  - (* the step is executed *)
    destruct (executeStep_spec i step p w Hstep)
      as (s1 & calls1 & E & Hcalls1 & Hid & _ & _ & Hdep & _ & _ & _ & Hst).
    rewrite (bind_ok _ _ _ _ _ E), bind_get_pipeline, bind_the_step, bind_emit by done.
    set (w1 := with_emitted _ _).
    assert (Hd : deployments w1 = deployments w) by done.
    assert (Hinv : invoked w1 = invoked w ++ calls1) by done.
    assert (Hc : clock w <= clock w1) by (cbn; lia).
    case_decide as Hfailed.
    + eexists _, _, calls1. split; [reflexivity|].
      by eapply scan_post_break.
    + destruct (IH (S i) (set_step i s1 p) w1) as (p' & w' & calls2 & E2 & Hpost).
      { rewrite length_set_step. lia. }
      exists p', w', (calls1 ++ calls2). split; [done|].
      eapply scan_post_cons; try done.
      destruct Hst as [[Hok _]|[Hf _]]; [by left | done].
  - (* the step is skipped *)
    replace (p, w) with (set_step i step p, w) by (by rewrite set_step_same).
    rewrite bind_modify_step by done.
    destruct (IH (S i) (set_step i (set_s_status SSkipped step) p) w)
      as (p' & w' & calls2 & E2 & Hpost).
    { rewrite length_set_step. lia. }
    exists p', w', ([] ++ calls2). split; [done|].
    apply (scan_post_cons i step (set_s_status SSkipped step) p w w p' w' [] calls2);
      try done.
    + by right.
    + by rewrite app_nil_r.
    + constructor.
Qed.

(** ** The end of [executePipeline] *)

Lemma executePipeline_spec p w :
  exists p1 w1 calls,
    scan_post 0 p w p1 w1 calls /\
    ((p_status p1 <> PFailed /\
      let p' := set_p_endTime (S (clock w1)) (set_p_status PCompleted p1) in
      executePipeline (p, w) = (Ok tt, (p', completed_world p' w1))) \/
     (p_status p1 = PFailed /\
      let p' := set_p_endTime (clock w1) p1 in
      executePipeline (p, w) = (Ok tt, (p', failed_world p' w1)))).
Proof.
  destruct (scan_spec (length (steps p)) 0 p w) as (p1 & w1 & calls & E & Hpost); [lia|].
  exists p1, w1, calls. split; [done|].
  unfold executePipeline.
  destruct (decide (p_status p1 = PFailed)) as [Hst|Hst]; [right|left]; (split; [done|]).
  - erewrite bind_attempt_ok; [reflexivity|].
    rewrite bind_get_pipeline, (bind_ok _ _ _ _ _ E), bind_get_pipeline.
    rewrite decide_False by (intros Hne; by apply Hne). reflexivity.
  - erewrite bind_attempt_ok; [reflexivity|].
    rewrite bind_get_pipeline, (bind_ok _ _ _ _ _ E), bind_get_pipeline.
    rewrite decide_True by done. reflexivity.
Qed.

(** ** Dependencies between the steps of a pipeline *)

Lemma forward_deps_check l : forward_deps_indexed l -> forward_deps l.
Proof.
  intros H j k (sj & sk & Hj & Hk & Hin).
  unfold forward_deps_indexed in H. rewrite Forall_lookup in H.
  specialize (H j (j, sj)). rewrite list_lookup_imap, Hj in H.
  specialize (H eq_refl). rewrite Forall_lookup in H.
  specialize (H k (k, sk)). rewrite list_lookup_imap, Hk in H.
  exact (H eq_refl Hin).
Qed.

Lemma depends_on_later l j k : forward_deps l -> depends_on l j k -> k < j.
Proof.
  intros Hf H. induction H as [j k H|j m k H _ IH].
  - by apply Hf.
  - apply Hf in H. lia.
Qed.

(** ** The runner: claims *)

Lemma helm_pipeline_forward : forward_deps (steps helm_pipeline).
Proof. apply forward_deps_check. apply (bool_decide_unpack _). vm_compute. reflexivity. Qed.

(** C1, counterexample: in the pipeline built for a helm deployment (clone,
    then helm-deploy depending on clone) the clone step fails; the run stops
    there and the dependent helm-deploy step is still pending, not skipped. *)
Lemma C1_dependent_left_pending : ~ C1_as_stated.
Proof.
  intros H.
  destruct (H helm_pipeline clone_fails_world helm_pipeline_forward)
    as (p' & w' & calls & E & _ & Hk).
  vm_compute in E. injection E as <- _.
  assert (Hdep : depends_on (steps helm_pipeline) 1 0).
  { apply tc_once. do 2 eexists. split; [reflexivity|]. split; [reflexivity|].
    apply list_elem_of_here. }
  destruct (Hk 0 _ eq_refl eq_refl) as [_ Hj].
  destruct (Hj 1 _ Hdep eq_refl) as [Hs _].
  discriminate Hs.
Qed.

(** C1, amended: for every pipeline whose dependencies name strictly earlier
    steps (as built pipelines do) the run returns, and if some step [k] ends
    in failed status then the pipeline ends failed, and every step that
    depends directly or transitively on [k] is left exactly as it was before
    the run (a pending step stays pending, it is not marked skipped) and no
    executor is invoked for it. *)
Theorem C1_failed_step_stops_scan p w :
  forward_deps (steps p) ->
  exists p' w' calls,
    executePipeline (p, w) = (Ok tt, (p', w')) /\
    invoked w' = invoked w ++ calls /\
    forall k sk,
      steps p' !! k = Some sk -> s_status sk = SFailed ->
      p_status p' = PFailed /\
      forall j,
        depends_on (steps p) j k ->
        steps p' !! j = steps p !! j /\ not_invoked_for j calls.
Proof.
  intros Hfwd.
  destruct (executePipeline_spec p w) as (p1 & w1 & calls & Hpost & Hcase).
  assert (Hsteps : forall k sk,
             steps p1 !! k = Some sk -> s_status sk = SFailed ->
             p_status p1 = PFailed /\
             forall j, depends_on (steps p) j k ->
                       steps p1 !! j = steps p !! j /\ not_invoked_for j calls).
  { intros k sk Hk Hfailed.
    destruct (sp_outcome _ _ _ _ _ _ Hpost)
      as [[_ Hall]|(b & _ & Hst & _ & Hafter & Hmid & Hle)].
    - destruct (Hall k sk) as [Hs|Hs]; [lia|done|congruence|congruence].
    - split; [done|]. intros j Hdep.
      assert (k < j) by (by eapply depends_on_later).
      assert (b <= k).
      { destruct (decide (b <= k)) as [|Hlt]; [done|].
        destruct (Hmid k sk) as [Hs|Hs]; [lia|done|congruence|congruence]. }
      split; [apply Hafter; lia|].
      eapply Forall_impl; [exact Hle|]. cbn. intros c Hc. lia. }
  destruct Hcase as [[Hne E]|[Hst E]]; cbn zeta in E.
  - eexists _, _, calls. split; [exact E|]. split; [exact (sp_invoked _ _ _ _ _ _ Hpost)|].
    intros k sk Hk Hfailed. destruct (Hsteps k sk Hk Hfailed) as [Hf _]. done.
  - eexists _, _, calls. split; [exact E|]. split; [exact (sp_invoked _ _ _ _ _ _ Hpost)|].
    intros k sk Hk Hfailed. destruct (Hsteps k sk Hk Hfailed) as [_ Hdeps]. done.
Qed.

(** C1, witness: the helm pipeline in the world whose clone call is rejected. *)
Lemma C1_failed_step_stops_scan_witness :
  exists p' w' calls,
    executePipeline (helm_pipeline, clone_fails_world) = (Ok tt, (p', w')) /\
    invoked w' = invoked clone_fails_world ++ calls /\
    forall k sk,
      steps p' !! k = Some sk -> s_status sk = SFailed ->
      p_status p' = PFailed /\
      forall j,
        depends_on (steps helm_pipeline) j k ->
        steps p' !! j = steps helm_pipeline !! j /\ not_invoked_for j calls.
Proof.
  apply (C1_failed_step_stops_scan helm_pipeline clone_fails_world).
  apply forward_deps_check. apply (bool_decide_unpack _). vm_compute. reflexivity.
Defined.

(** A rejected tool call makes the [switch] throw the tool's message. *)
Lemma rejected_plan_throws i step p w e :
  steps p !! i = Some step ->
  s_type step = "terraform-plan" ->
  tools w (length (invoked w)) (TerraformPlan (s_config step)) = Rejects e ->
  executor_throws i step p w e.
Proof.
  intros Hstep Hty Hrej.
  assert (Hi : i < length (steps p)) by (by eapply lookup_lt_Some).
  unfold executor_throws, runTool.
  rewrite bind_the_step, bind_get_pipeline by done.
  cbn [s_type mark_running push_logs set_s_startTime set_s_status s_config].
  rewrite Hty. repeat case_decide; try done.
  unfold bind, liftW, call_tool. cbn. by rewrite Hrej.
Qed.

(** A step of a type the [switch] does not know throws as well. *)
Lemma unknown_type_throws i step p w :
  steps p !! i = Some step ->
  s_type step ∉ ["clone"; "terraform-plan"; "terraform-apply"; "helm-deploy"; "ansible-run"] ->
  executor_throws i step p w ("Unknown step type: " +:+ s_type step).
Proof.
  intros Hstep Hty.
  assert (Hi : i < length (steps p)) by (by eapply lookup_lt_Some).
  unfold executor_throws, runTool.
  rewrite bind_the_step, bind_get_pipeline by done.
  cbn [s_type mark_running push_logs set_s_startTime set_s_status s_config].
  repeat case_decide; try done; exfalso; apply Hty; set_solver.
Qed.

(** C6: when the executor call of a step throws, [executeStep] itself
    returns normally; the step is failed, its logs end with the error
    message, its end timestamp is set, and the pipeline is saved with it. *)
Theorem C6_executor_failure_recovered i step p w e :
  steps p !! i = Some step ->
  executor_throws i step p w e ->
  exists step' w',
    executeStep i (p, w) = (Ok tt, (set_step i step' p, w')) /\
    s_status step' = SFailed /\
    logs step' = logs step ++ ["Starting step: " +:+ s_name step; "Step failed: " +:+ e] /\
    s_endTime step' = Some (S (clock w)) /\
    pipelines w' !! p_id p = Some (set_step i step' p).
Proof.
  intros Hstep Hthrow.
  destruct (executeStep_spec i step p w Hstep)
    as (s1 & calls & E & _ & _ & _ & _ & _ & _ & _ & Hend & Hst).
  exists s1, (after_step (set_step i s1 p) calls w). split; [exact E|].
  unfold executor_throws in Hthrow. cbn zeta in Hst.
  destruct Hst as [(_ & Hok & _)|(Hf & e' & He' & Hlogs)]; [congruence|].
  assert (e' = e) as -> by congruence.
  split; [done|]. split; [done|]. split; [done|].
  unfold after_step. cbn. apply lookup_insert_eq.
Qed.

(** C6, witness: a terraform-plan step whose tool call is rejected. *)
Lemma C6_executor_failure_recovered_witness :
  exists step' w',
    executeStep 0 (sample_pipeline PRunning [plan_step], clone_fails_world) =
      (Ok tt, (set_step 0 step' (sample_pipeline PRunning [plan_step]), w')) /\
    s_status step' = SFailed /\
    logs step' = ["Starting step: Terraform Plan"; "Step failed: exit status 1"] /\
    s_endTime step' = Some 101 /\
    pipelines w' !! "p1" = Some (set_step 0 step' (sample_pipeline PRunning [plan_step])).
Proof.
  apply (C6_executor_failure_recovered 0 plan_step (sample_pipeline PRunning [plan_step])
           clone_fails_world "exit status 1").
  - reflexivity.
  - vm_compute. reflexivity.
Defined.

(** C7: a run always ends with the pipeline completed or failed, saved with
    its end timestamp; the owning deployment, when stored, gets the same
    status, and its last-deployed-at is set to a date read during the run
    when the pipeline completed and is left as it was when it failed. *)
Theorem C7_deployment_follows_pipeline p w d :
  deployments w !! deploymentId p = Some d ->
  exists p' w' d',
    executePipeline (p, w) = (Ok tt, (p', w')) /\
    pipelines w' !! p_id p = Some p' /\
    is_Some (p_endTime p') /\
    deployments w' !! deploymentId p = Some d' /\
    ((p_status p' = PCompleted /\ d_status d' = DCompleted /\
      exists t, clock w <= t < clock w' /\ lastDeployedAt d' = Some t) \/
     (p_status p' = PFailed /\ d_status d' = DFailed /\
      lastDeployedAt d' = lastDeployedAt d)).
Proof.
  intros Hd.
  destruct (executePipeline_spec p w) as (p1 & w1 & calls & Hpost & Hcase).
  destruct Hpost as [_ Hid Hdid Hdeps Hclock _ _ _ _ _].
  destruct Hcase as [[Hne E]|[Hst E]]; cbn zeta in E.
  - eexists _, _, (set_lastDeployedAt (clock w1) (set_d_status DCompleted d)).
    split; [exact E|]. unfold completed_world. cbn.
    split; [rewrite <- Hid; apply lookup_insert_eq|].
    split; [by eexists|].
    split; [by rewrite Hdid, lookup_alter_eq, Hdeps, Hd|].
    left. split; [done|]. split; [done|]. exists (clock w1). split; [lia|done].
  - eexists _, _, (set_d_status DFailed d).
    split; [exact E|]. unfold failed_world. cbn.
    split; [rewrite <- Hid; apply lookup_insert_eq|].
    split; [by eexists|].
    split; [by rewrite Hdid, lookup_alter_eq, Hdeps, Hd|].
    right. by repeat split.
Qed.

(** C7, witness: the helm pipeline with its deployment stored. *)
Lemma C7_deployment_follows_pipeline_witness :
  exists p' w' d',
    executePipeline (helm_pipeline, all_succeed_world) = (Ok tt, (p', w')) /\
    pipelines w' !! "p1" = Some p' /\
    is_Some (p_endTime p') /\
    deployments w' !! "d1" = Some d' /\
    ((p_status p' = PCompleted /\ d_status d' = DCompleted /\
      exists t, 100 <= t < clock w' /\ lastDeployedAt d' = Some t) \/
     (p_status p' = PFailed /\ d_status d' = DFailed /\
      lastDeployedAt d' = None)).
Proof.
  apply (C7_deployment_follows_pipeline helm_pipeline all_succeed_world helm_deployment).
  vm_compute. reflexivity.
Defined.

(** ** The facade: claims *)

(** [startPipeline] for a missing deployment: the error names it, and only
    an identifier was drawn. *)
Lemma startPipeline_not_found id by_ w :
  deployments w !! id = None ->
  startPipeline id by_ w =
    (Throw ("Deployment " +:+ id +:+ " not found"), with_uuid_ctr (S (uuid_ctr w)) w).
Proof.
  intros H. unfold startPipeline, bind, attempt, uuidv4, Deployment_find, throw. cbn.
  by rewrite H.
Qed.

(** [startPipeline] for a stored deployment, whatever its status: the
    deployment is set running, a running pipeline with the built steps is
    saved under a new identifier and handed to the event loop. *)
Lemma startPipeline_found id by_ w d :
  deployments w !! id = Some d ->
  exists l w',
    let pid := uuid_src w (uuid_ctr w) in
    let pipeline := mkPipeline pid id PRunning l (Some (clock w)) None by_ in
    startPipeline id by_ w = (Ok pid, w') /\
    fst (buildPipelineSteps (set_d_status DRunning d) (with_uuid_ctr (S (uuid_ctr w)) w))
      = Ok l /\
    pipelines w' = <[pid := pipeline]> (pipelines w) /\
    deployments w' = <[d_id d := set_d_status DRunning d]> (deployments w) /\
    background w' = background w ++ [pipeline].
Proof.
  intros H. unfold startPipeline.
  set (d' := set_d_status DRunning d).
  set (w0 := with_deployments (<[d_id d := d']> (deployments w))
               (with_uuid_ctr (S (uuid_ctr w)) w)).
  destruct (buildPipelineSteps_chain d' w0) as (l & E & _).
  exists l. eexists. cbn zeta.
  unfold bind at 1. cbn [uuidv4].
  erewrite bind_attempt_ok; cycle 1.
  { unfold bind at 1, Deployment_find. cbn [deployments with_uuid_ctr]. rewrite H.
    unfold bind at 1, Deployment_save. cbn [deployments with_uuid_ctr].
    fold d'. fold w0. rewrite (bind_ok _ _ _ _ _ E). reflexivity. }
  split; [reflexivity|]. split.
  { destruct (buildPipelineSteps_chain d' (with_uuid_ctr (S (uuid_ctr w)) w))
      as (l' & E' & _).
    destruct (buildPipelineSteps_same_kind d' w0 (with_uuid_ctr (S (uuid_ctr w)) w))
      as (l1 & l2 & H1 & H2 & _).
    rewrite E'. cbn. f_equal.
    clear -E E'. subst d' w0. destruct d as [? ? ? ? ? ? ? ? ? ? [[?|] [?|] [?|]]];
      cbn in E, E'; unfold ret in E, E';
      injection E as <- _; injection E' as <- _; reflexivity. }
  by repeat split.
Qed.

(** [cancelPipeline] when the pipeline is stored and running. *)
Lemma cancelPipeline_running pid p w :
  pipelines w !! pid = Some p -> p_status p = PRunning ->
  let p' := set_p_endTime (clock w) (set_p_status PCancelled p) in
  cancelPipeline pid w =
    (Ok tt,
     with_deployments (alter (set_d_status DCancelled) (deploymentId p) (deployments w))
       (with_pipelines (<[p_id p := p']> (pipelines w)) (with_clock (S (clock w)) w))).
Proof.
  intros Hp Hst. unfold cancelPipeline, bind, Pipeline_findOne. rewrite Hp.
  rewrite decide_True by done. reflexivity.
Qed.

(** [cancelPipeline] when the pipeline is missing or not running. *)
Lemma cancelPipeline_otherwise pid w :
  (forall p, pipelines w !! pid = Some p -> p_status p <> PRunning) ->
  cancelPipeline pid w = (Ok tt, w).
Proof.
  intros H. unfold cancelPipeline, bind, Pipeline_findOne.
  destruct (pipelines w !! pid) as [p|] eqn:Hp; [|done].
  rewrite decide_False by (by apply H). reflexivity.
Qed.

(** [cancelPipeline] never touches the steps of the pipeline it saves. *)
Lemma cancelPipeline_keeps_steps pid p w :
  pipelines w !! pid = Some p -> p_id p = pid ->
  exists p', pipelines (snd (cancelPipeline pid w)) !! pid = Some p' /\ steps p' = steps p.
Proof.
  intros Hp Hid. destruct (decide (p_status p = PRunning)) as [Hst|Hst].
  - rewrite (cancelPipeline_running pid p w Hp Hst). cbn. rewrite Hid.
    rewrite lookup_insert_eq. by eexists.
  - rewrite cancelPipeline_otherwise; [by exists p|].
    intros p0 Hp0. by simplify_eq.
Qed.

(** [cancelPipeline] on a stored pipeline that is not running, pending and
    terminal alike: it returns normally and nothing is changed. *)
Lemma cancelPipeline_not_running pid p w :
  pipelines w !! pid = Some p -> p_status p <> PRunning ->
  cancelPipeline pid w = (Ok tt, w).
Proof.
  intros Hp Hst. apply cancelPipeline_otherwise. intros p0 Hp0. by simplify_eq.
Qed.



(** C10: cancel with an identifier under which no pipeline is stored returns
    normally and leaves the whole world, pipelines and deployments included,
    as it was. *)
Theorem C10_cancel_unknown_noop pid w :
  pipelines w !! pid = None ->
  cancelPipeline pid w = (Ok tt, w).
Proof.
  intros Hp. apply cancelPipeline_otherwise. intros p Hp'. congruence.
Qed.

(** C10, witness: no pipeline is stored under "p2". *)
Lemma C10_cancel_unknown_noop_witness :
  cancelPipeline "p2" (world_with running_pipeline) = (Ok tt, world_with running_pipeline).
Proof.
  apply (C10_cancel_unknown_noop "p2" (world_with running_pipeline)).
  vm_compute. reflexivity.
Defined.

(** ** The handlers next to the facade *)

(** The trigger handler answers 404 for a missing deployment. *)
Lemma trigger_route_not_found id email w :
  deployments w !! id = None ->
  trigger_route id email w =
    (Ok (mkResponse 404 false (Some "Deployment not found") None), w).
Proof.
  intros H. unfold trigger_route, bind, attempt, Deployment_find. cbn. by rewrite H.
Qed.

(** The trigger handler refuses a deployment that is already running and
    changes nothing. *)
Lemma trigger_route_conflict id email w d :
  deployments w !! id = Some d -> d_status d = DRunning ->
  trigger_route id email w =
    (Ok (mkResponse 400 false (Some "Deployment is already running") None), w).
Proof.
  intros H Hst. unfold trigger_route, bind, attempt, Deployment_find. cbn. rewrite H.
  by rewrite decide_True.
Qed.

(** Otherwise the trigger handler stores a pending pipeline of four pending
    steps, sets the deployment running and answers with the new identifier. *)
Lemma trigger_route_starts id email w d :
  deployments w !! id = Some d -> d_status d <> DRunning ->
  exists w' p,
    trigger_route id email w =
      (Ok (mkResponse 200 true None (Some (uuid_src w (uuid_ctr w)))), w') /\
    pipelines w' !! uuid_src w (uuid_ctr w) = Some p /\
    p_status p = PPending /\ deploymentId p = d_id d /\ length (steps p) = 4 /\
    deployments w' !! d_id d =
      Some (set_lastDeployedAt (S (clock w)) (set_d_status DRunning d)).
Proof.
  intros H Hst. eexists _, _. split.
  { unfold trigger_route, bind, attempt, Deployment_find. cbn. rewrite H.
    rewrite decide_False by done. cbn. reflexivity. }
  cbn. rewrite !lookup_insert_eq. by repeat split.
Qed.

Lemma cancel_steps_spec l :
  forall w, exists l' t,
    cancel_steps l w = (Ok l', with_clock t w) /\ Forall2 cancelled_from l l'.
Proof.
  induction l as [|s l IH]; intros w.
  - exists [], (clock w). split; [by destruct w|constructor].
  - cbn [cancel_steps]. destruct (decide (s_status s = SRunning)) as [Hrun|Hrun].
    + destruct (IH (with_clock (S (clock w)) w)) as (l' & t & E & HF).
      eexists (_ :: l'), t. split.
      * unfold bind at 1. rewrite !decide_True by (done || (left; done)).
        unfold bind at 1. cbn [new_Date ret]. rewrite (bind_ok _ _ _ _ _ E).
        reflexivity.
      * constructor; [|done].
        split; [intros _; by split; [|eexists] | intros _; done].
    + destruct (IH w) as (l' & t & E & HF).
      eexists (_ :: l'), t. split.
      * unfold bind at 1. cbn [ret]. rewrite (bind_ok _ _ _ _ _ E). reflexivity.
      * constructor; [|done]. split; [done|]. intros Hp.
        rewrite decide_True by (by right). done.
Qed.

(** The cancel handler answers 404 for a missing pipeline and 400 for one
    that is neither running nor pending, and changes nothing. *)
Lemma cancel_route_missing pid w :
  pipelines w !! pid = None ->
  cancel_route pid w = (Ok (mkResponse 404 false (Some "Pipeline not found") None), w).
Proof.
  intros H. unfold cancel_route, bind, attempt, Pipeline_findOne. cbn. by rewrite H.
Qed.

Lemma cancel_route_terminal pid p w :
  pipelines w !! pid = Some p -> terminal (p_status p) ->
  cancel_route pid w =
    (Ok (mkResponse 400 false
           (Some "Cannot cancel pipeline that is not running or pending") None), w).
Proof.
  intros H Hterm. unfold cancel_route, bind, attempt, Pipeline_findOne. cbn. rewrite H.
  rewrite decide_True; [done|].
  destruct Hterm as [->|[->| ->]]; by split.
Qed.

(** The cancel handler, for a running or pending pipeline: the steps that
    were running or pending are saved as cancelled. *)
Lemma cancel_route_active pid p w :
  pipelines w !! pid = Some p -> p_id p = pid ->
  p_status p = PRunning \/ p_status p = PPending ->
  exists w' p',
    cancel_route pid w = (Ok (mkResponse 200 true None (Some pid)), w') /\
    pipelines w' !! pid = Some p' /\
    p_status p' = PCancelled /\ p_endTime p' = Some (clock w) /\
    Forall2 cancelled_from (steps p) (steps p').
Proof.
  intros H Hid Hst.
  destruct (cancel_steps_spec (steps p) (with_clock (S (clock w)) w)) as (l' & t & E & HF).
  exists (snd (cancel_route pid w)),
    (set_steps l' (set_p_endTime (clock w) (set_p_status PCancelled p))).
  assert (Hgo : forall k : option Pipeline -> M World Response,
             bind (Pipeline_findOne pid) k w = k (Some p) w).
  { intros k. unfold bind, Pipeline_findOne. by rewrite H. }
  unfold cancel_route.
  destruct (deployments w !! deploymentId p) as [d|] eqn:Hd;
    [destruct (decide (d_status d = DRunning)) as [Hr|Hr]|].
  all: erewrite bind_attempt_ok;
    [|rewrite Hgo, decide_False by (intros [? ?]; destruct Hst; congruence);
      unfold bind at 1; cbn [new_Date]; cbn [steps set_p_endTime set_p_status];
      rewrite (bind_ok _ _ _ _ _ E);
      unfold bind at 1, Pipeline_save; unfold bind at 1, Deployment_find;
      cbn; rewrite Hid, Hd, ?decide_True, ?decide_False by done; reflexivity].
  all: cbn [ret snd]; (split; [reflexivity|]);
    cbn; rewrite lookup_insert_eq; by repeat split.
Qed.

(** C3, the failing input evaluated: [startPipeline] for a deployment whose
    status is already running does not fail; it returns a new identifier,
    stores a second running pipeline under it and hands it to the event
    loop, where the trigger handler refuses the same request. *)
Theorem C3_startPipeline_on_running_deployment :
  d_status helm_deployment = DRunning /\
  deployments all_succeed_world !! "d1" = Some helm_deployment /\
  exists w' p,
    startPipeline "d1" "alice" all_succeed_world = (Ok "u0", w') /\
    pipelines all_succeed_world !! "u0" = None /\
    pipelines w' !! "u0" = Some p /\
    p_status p = PRunning /\ length (steps p) = 2 /\ background w' = [p] /\
    trigger_route "d1" (Some "alice") all_succeed_world =
      (Ok (mkResponse 400 false (Some "Deployment is already running") None),
       all_succeed_world).
Proof.
  split; [reflexivity|]. split; [vm_compute; reflexivity|].
  destruct (startPipeline "d1" "alice" all_succeed_world) as [r w'] eqn:E.
  vm_compute in E. injection E as <- <-.
  eexists _, _. split; [reflexivity|]. split; [vm_compute; reflexivity|].
  split; [vm_compute; reflexivity|]. split; [reflexivity|]. split; [reflexivity|].
  split; [reflexivity|]. vm_compute. reflexivity.
Qed.



(** C5, the failing inputs and what is behind them. [cancelPipeline] raises
    no error for a terminal pipeline: for every stored pipeline whose status
    is completed, failed or cancelled it returns normally, and the world is
    as it was; for the same request the cancel handler refuses with 400
    "Cannot cancel pipeline that is not running or pending" and changes
    nothing either. Both are evaluated on a stored pipeline of each
    terminal status. *)
Theorem C5_cancelPipeline_on_terminal :
  ~ C5_as_stated /\
  (forall pid p w,
     pipelines w !! pid = Some p -> terminal (p_status p) ->
     cancelPipeline pid w = (Ok tt, w) /\
     cancel_route pid w = (Ok cancel_refused, w)) /\
  Forall (fun st =>
            let p := set_p_status st completed_pipeline in
            let w := world_with p in
            terminal (p_status p) /\ pipelines w !! "p1" = Some p /\
            cancelPipeline "p1" w = (Ok tt, w) /\
            cancel_route "p1" w = (Ok cancel_refused, w))
    [PCompleted; PFailed; PCancelled].
Proof.
  assert (Hterminal : forall pid p w,
             pipelines w !! pid = Some p -> terminal (p_status p) ->
             cancelPipeline pid w = (Ok tt, w) /\
             cancel_route pid w = (Ok cancel_refused, w)).
  { intros pid p w Hp Hterm. split.
    - apply (cancelPipeline_not_running pid p w Hp).
      destruct Hterm as [->|[->| ->]]; discriminate.
    - by apply (cancel_route_terminal pid p w). }
  split; [|split; [exact Hterminal|]].
  - intros H.
    destruct (H (world_with completed_pipeline) "p1" completed_pipeline)
      as (e & w' & E & _); [reflexivity|reflexivity|by left|].
    destruct (Hterminal "p1" completed_pipeline (world_with completed_pipeline)) as [E' _];
      [reflexivity|by left|].
    rewrite E' in E. discriminate E.
  - assert (Hat : forall st,
               terminal st ->
               let p := set_p_status st completed_pipeline in
               let w := world_with p in
               terminal (p_status p) /\ pipelines w !! "p1" = Some p /\
               cancelPipeline "p1" w = (Ok tt, w) /\
               cancel_route "p1" w = (Ok cancel_refused, w)).
    { intros st Hst p w.
      assert (Hp : pipelines w !! "p1" = Some p) by apply lookup_insert_eq.
      split; [exact Hst|]. split; [exact Hp|]. by apply (Hterminal "p1" p w). }
    repeat constructor; apply Hat; unfold terminal; auto.
Qed.

(** ** Two runs from trigger to end *)

(** A helm deployment whose tools all succeed: both steps completed, the
    pipeline and the deployment completed, last-deployed-at written. *)
Example run_helm_deployment :
  exists w,
    snd (run_background (snd (startPipeline "d1" "alice" all_succeed_world))) = w /\
    stored_statuses "u0" w = [SCompleted; SCompleted] /\
    p_status <$> pipelines w !! "u0" = Some PCompleted /\
    d_status <$> deployments w !! "d1" = Some DCompleted /\
    lastDeployedAt <$> deployments w !! "d1" = Some (Some 105) /\
    length (invoked w) = 2 /\ background w = [].
Proof. eexists. split; [reflexivity|]. vm_compute. by repeat split. Qed.

(** A terraform and helm deployment whose apply is rejected: clone and plan
    completed, apply failed, helm-deploy still pending and never called, the
    pipeline and the deployment failed, last-deployed-at not written. *)
Example run_hybrid_deployment_apply_rejected :
  exists w,
    snd (run_background (snd (startPipeline "d1" "alice" apply_fails_world))) = w /\
    stored_statuses "u0" w = [SCompleted; SCompleted; SFailed; SPending] /\
    p_status <$> pipelines w !! "u0" = Some PFailed /\
    d_status <$> deployments w !! "d1" = Some DFailed /\
    lastDeployedAt <$> deployments w !! "d1" = Some None /\
    call_index <$> invoked w = [0; 1; 2].
Proof. eexists. split; [reflexivity|]. vm_compute. by repeat split. Qed.

(** * Further properties of the runner *)

(** ** Tool calls of one step *)

(** The [switch] makes at most one tool call. *)
Lemma runTool_invoked i p w :
  exists calls,
    invoked (snd (snd (runTool i (p, w)))) = invoked w ++ calls /\ length calls <= 1.
Proof.
  assert (Hnone : forall r : Result unit,
             exists calls, invoked (snd (snd (r, (p, w)))) = invoked w ++ calls /\
                           length calls <= 1).
  { intros r. exists []. split; [by rewrite app_nil_r | cbn; lia]. }
  unfold runTool, the_step, bind, get_pipeline, step_at. cbn.
  destruct (steps p !! i) as [s|]; [|apply Hnone]. cbn.
  assert (Hcall : forall (op : Invocation) (k : list string -> Run unit),
             (forall out P W, invoked (snd (snd (k out (P, W)))) = invoked W) ->
             exists calls,
               invoked (snd (snd (bind (liftW (call_tool (p_id p) i op)) k (p, w)))) =
                 invoked w ++ calls /\ length calls <= 1).
  { intros op k Hk. exists [mkToolCall (p_id p) i op]. split; [|cbn; lia].
    unfold bind, liftW, call_tool.
    destruct (tools w _ _) as [out|e]; cbn; [by rewrite Hk|done]. }
  repeat case_decide.
  - destruct (@prop_cases (Pipeline * World) "repository" (s_config s)) as [[e ->]| ->];
      [apply Hnone|].
    destruct (@prop_cases (Pipeline * World) "branch" (s_config s)) as [[e ->]| ->];
      [apply Hnone|].
    apply (Hcall _ (fun _ => ret tt)). done.
  - apply (Hcall _ (fun out => modify_step i (push_logs out))). done.
  - apply (Hcall _ (fun out => modify_step i (push_logs out))). done.
  - apply (Hcall _ (fun out => modify_step i (push_logs out))). done.
  - apply (Hcall _ (fun out => modify_step i (push_logs out))). done.
  - apply Hnone.
Qed.

(** [executeStep] calls no tool outside its [switch]. *)
Lemma executeStep_invoked i step p w :
  steps p !! i = Some step ->
  invoked (snd (snd (executeStep i (p, w)))) =
    invoked (snd (snd (runTool i (set_step i (mark_running (clock w) step) p,
                                  with_clock (S (clock w)) w)))).
Proof.
  intros Hstep.
  assert (Hi : i < length (steps p)) by (by eapply lookup_lt_Some).
  replace (executeStep i (p, w)) with (executeStep i (set_step i step p, w))
    by (by rewrite set_step_same).
  unfold executeStep.
  rewrite bind_modify_step, bind_new_Date, bind_modify_step, bind_the_step,
    bind_modify_step by done.
  cbn [s_name set_s_startTime set_s_status].
  fold (mark_running (clock w) step).
  destruct (runTool_spec i (mark_running (clock w) step) p (with_clock (S (clock w)) w) Hi)
    as (calls & Hcalls & [[out E]|[e E]]).
  - erewrite bind_attempt_ok; cycle 1.
    { rewrite (bind_ok _ _ _ _ _ E), bind_modify_step by done.
      by apply modify_step_here. }
    rewrite bind_ret, bind_new_Date, bind_modify_step, bind_get_pipeline, save_here by done.
    by rewrite E.
  - erewrite bind_attempt_throw; cycle 1.
    { by rewrite (bind_throw _ _ _ _ _ E). }
    rewrite bind_bind, bind_modify_step, bind_modify_step by done.
    rewrite bind_new_Date, bind_modify_step, bind_get_pipeline, save_here by done.
    by rewrite E.
Qed.

(** One [executeStep], with everything the later properties need. *)
Lemma executeStep_visit i step p w :
  steps p !! i = Some step ->
  exists step' calls,
    executeStep i (p, w) =
      (Ok tt, (set_step i step' p, after_step (set_step i step' p) calls w)) /\
    calls_of (p_id p) i calls /\ length calls <= 1 /\
    executed_from step step' /\
    invoked (snd (snd (runTool i (set_step i (mark_running (clock w) step) p,
                                  with_clock (S (clock w)) w)))) = invoked w ++ calls /\
    (s_status step' = SFailed ->
     exists e, executor_throws i step p w e /\
               logs step' = logs step ++ ["Starting step: " +:+ s_name step;
                                          "Step failed: " +:+ e]).
Proof.
  intros Hstep.
  destruct (executeStep_spec i step p w Hstep)
    as (s1 & calls & E & Hcalls & Hid & Hname & Hty & Hdep & Hcfg & Hstart & Hend & Hst).
  pose proof (executeStep_invoked i step p w Hstep) as Hinv.
  rewrite E in Hinv. cbn in Hinv.
  destruct (runTool_invoked i (set_step i (mark_running (clock w) step) p)
              (with_clock (S (clock w)) w)) as (calls' & Hcalls' & Hlen).
  cbn in Hcalls'. rewrite Hcalls' in Hinv. apply app_inv_head in Hinv. subst calls'.
  exists s1, calls. split; [exact E|]. split; [done|]. split; [done|]. split.
  { split; [done|]. cbn zeta in Hst.
    destruct Hst as [(Hs & _ & out & Hlogs)|(Hs & e & _ & Hlogs)].
    - split; [by left|]. rewrite Hstart, Hend. split; [by eexists|]. split; [by eexists|].
      eexists. rewrite Hlogs. reflexivity.
    - split; [by right|]. rewrite Hstart, Hend. split; [by eexists|]. split; [by eexists|].
      eexists. rewrite Hlogs. reflexivity. }
  split; [done|].
  intros Hfailed. cbn zeta in Hst.
  destruct Hst as [(Hs & _)|(_ & e & He & Hlogs)]; [congruence|].
  by exists e.
Qed.

(** ** What the scan does to each step *)

Lemma executed_from_identity s s' : executed_from s s' -> same_identity s s'.
Proof. by intros [H _]. Qed.

Lemma not_executed_from_identity s s' : not_executed_from s s' -> same_identity s s'.
Proof. intros [->| ->]; by repeat split. Qed.

Lemma increasing_app_one (calls1 calls2 : list ToolCall) i :
  Forall (fun c => call_index c = i) calls1 ->
  length calls1 <= 1 ->
  Forall (fun c => S i <= call_index c) calls2 ->
  increasing (call_index <$> calls2) ->
  increasing (call_index <$> (calls1 ++ calls2)).
Proof.
  intros Hi Hlen Hge Hinc.
  destruct calls1 as [|c [|c' rest]]; [done| |cbn in Hlen; lia].
  cbn. split; [|done]. apply Forall_fmap.
  apply Forall_cons_1 in Hi as [Hc _].
  eapply Forall_impl; [exact Hge|]. cbn. intros c2 H2. lia.
Qed.

(** One visited step [s1] at position [i], then the rest of the scan. *)
Lemma scan_trace_cons i step s1 p w w1 p' w' calls1 calls2 :
  steps p !! i = Some step ->
  (not_executed_from step s1 /\ calls1 = []) \/ executed_from step s1 ->
  calls_of (p_id p) i calls1 -> length calls1 <= 1 ->
  (forall k, k <> p_id p -> pipelines w1 !! k = pipelines w !! k) ->
  background w1 = background w /\ timers w1 = timers w ->
  tools w1 = tools w /\ uuid_src w1 = uuid_src w /\ uuid_ctr w1 = uuid_ctr w ->
  (exists events, emitted w1 = emitted w ++ events /\
                  Forall (fun e => room e = "deployment-" +:+ deploymentId p) events) ->
  scan_post (S i) (set_step i s1 p) w1 p' w' calls2 ->
  scan_trace (S i) (set_step i s1 p) w1 p' w' calls2 ->
  scan_trace i p w p' w' (calls1 ++ calls2).
Proof.
  intros Hstep Hvisit Hcalls1 Hlen Hpip Hq Hor (ev1 & Hev1 & Hroom1) Hpost [].
  assert (Hi : i < length (steps p)) by (by eapply lookup_lt_Some).
  assert (Hat : steps p' !! i = Some s1).
  { rewrite (sp_before _ _ _ _ _ _ Hpost) by lia. by apply steps_set_step_eq. }
  assert (Hge : Forall (fun c => S i <= call_index c) calls2).
  { eapply Forall_impl; [exact (sp_calls _ _ _ _ _ _ Hpost)|]. by intros c [_ ?]. }
  assert (Hidx1 : Forall (fun c => call_index c = i) calls1).
  { eapply Forall_impl; [exact Hcalls1|]. by intros c [_ ?]. }
  split.
  - intros j s s' Hs Hs'. destruct (decide (j = i)) as [->|Hne].
    + simplify_eq. destruct Hvisit as [[Hnot ->]|Hex]; [left|by right].
      split; [done|]. cbn. eapply Forall_impl; [exact Hge|]. cbn. intros c Hc. lia.
    + assert (Hs1 : steps (set_step i s1 p) !! j = Some s)
        by (by rewrite steps_set_step_ne).
      destruct (st_visit0 j s s' Hs1 Hs') as [[Hnot Hno]|Hex]; [left|by right].
      split; [done|]. apply Forall_app. split; [|done].
      eapply Forall_impl; [exact Hidx1|]. cbn. intros c Hc. lia.
  - by apply (increasing_app_one calls1 calls2 i).
  - apply Forall_app. split.
    + eapply Forall_impl; [exact Hidx1|]. cbn. intros c ->. done.
    + eapply Forall_impl; [exact st_in_range0|]. cbn. intros c Hc.
      by rewrite length_set_step in Hc.
  - done.
  - intros k Hk. rewrite st_pipelines0 by done. by apply Hpip.
  - destruct st_queue0 as [-> ->]. done.
  - destruct st_oracles0 as (-> & -> & ->). done.
  - destruct st_events0 as (ev2 & Hev2 & Hroom2). exists (ev1 ++ ev2). split.
    + by rewrite Hev2, Hev1, app_assoc.
    + apply Forall_app. by split.
Qed.

Lemma scan_trace_end i p w : scan_trace i p w p w [].
Proof.
  split; try done.
  - intros j s s' Hs Hs'. simplify_eq. left. split; [by left|constructor].
  - exists []. split; [by rewrite app_nil_r|constructor].
Qed.

(** The scan stops at position [i], whose step [s1] failed. *)
Lemma scan_trace_break i step s1 p w w1 calls :
  steps p !! i = Some step ->
  executed_from step s1 ->
  calls_of (p_id p) i calls -> length calls <= 1 ->
  (forall k, k <> p_id p -> pipelines w1 !! k = pipelines w !! k) ->
  background w1 = background w /\ timers w1 = timers w ->
  tools w1 = tools w /\ uuid_src w1 = uuid_src w /\ uuid_ctr w1 = uuid_ctr w ->
  (exists events, emitted w1 = emitted w ++ events /\
                  Forall (fun e => room e = "deployment-" +:+ deploymentId p) events) ->
  scan_trace i p w (set_p_status PFailed (set_step i s1 p)) w1 calls.
Proof.
  intros Hstep Hex Hcalls Hlen Hpip Hq Hor Hev.
  assert (Hi : i < length (steps p)) by (by eapply lookup_lt_Some).
  assert (Hidx : Forall (fun c => call_index c = i) calls).
  { eapply Forall_impl; [exact Hcalls|]. by intros c [_ ?]. }
  split; try done.
  - intros j s s' Hs Hs'. cbn in Hs'. destruct (decide (j = i)) as [->|Hne].
    + rewrite steps_set_step_eq in Hs' by done. simplify_eq. by right.
    + rewrite steps_set_step_ne in Hs' by done. simplify_eq. left.
      split; [by left|]. eapply Forall_impl; [exact Hidx|]. cbn. intros c Hc. lia.
  - destruct calls as [|c [|c' rest]]; [done|by repeat constructor|cbn in Hlen; lia].
  - eapply Forall_impl; [exact Hidx|]. cbn. intros c ->. done.
Qed.

Lemma scan_trace_spec n :
  forall i p w,
    length (steps p) <= i + n ->
    exists p' w' calls,
      scan n i (p, w) = (Ok tt, (p', w')) /\
      scan_post i p w p' w' calls /\ scan_trace i p w p' w' calls.
Proof.
  induction n as [|n IH]; intros i p w Hlen.
  { exists p, w, []. split; [done|]. split; [apply scan_post_end; lia|apply scan_trace_end]. }
  cbn [scan]. rewrite bind_get_pipeline.
  destruct (steps p !! i) as [step|] eqn:Hstep; cycle 1.
  { exists p, w, []. split; [done|].
    split; [apply scan_post_end; by apply lookup_ge_None|apply scan_trace_end]. }
  assert (Hi : i < length (steps p)) by (by eapply lookup_lt_Some).
  destruct (areDependenciesCompleted step (steps p)) eqn:Hdeps; cbn [negb].
  - destruct (executeStep_visit i step p w Hstep)
      as (s1 & calls1 & E & Hcalls1 & Hlen1 & Hex & _ & _).
    pose proof Hex as (Hident & Hst & _).
    destruct Hident as (Hid & _ & _ & Hdep & _).
    rewrite (bind_ok _ _ _ _ _ E), bind_get_pipeline, bind_the_step, bind_emit by done.
    set (w1 := with_emitted _ _).
    assert (Hd : deployments w1 = deployments w) by done.
    assert (Hinv : invoked w1 = invoked w ++ calls1) by done.
    assert (Hc : clock w <= clock w1) by (cbn; lia).
    assert (Hpip : forall k, k <> p_id p -> pipelines w1 !! k = pipelines w !! k).
    { intros k Hk. subst w1. cbn. by rewrite lookup_insert_ne. }
    assert (Hev : exists events,
               emitted w1 = emitted w ++ events /\
               Forall (fun e => room e = "deployment-" +:+ deploymentId p) events).
    { eexists [_]. split; [reflexivity|]. by repeat constructor. }
    case_decide as Hfailed.
    + eexists _, _, calls1. split; [reflexivity|]. split.
      * by eapply scan_post_break.
      * by eapply scan_trace_break.
    + destruct (IH (S i) (set_step i s1 p) w1) as (p' & w' & calls2 & E2 & Hpost & Htrace).
      { rewrite length_set_step. lia. }
      exists p', w', (calls1 ++ calls2). split; [done|]. split.
      * eapply scan_post_cons; try done.
        destruct Hst as [Hok|Hf]; [by left | done].
      * eapply scan_trace_cons; try done. by right.
  - replace (p, w) with (set_step i step p, w) by (by rewrite set_step_same).
    rewrite bind_modify_step by done.
    destruct (IH (S i) (set_step i (set_s_status SSkipped step) p) w)
      as (p' & w' & calls2 & E2 & Hpost & Htrace).
    { rewrite length_set_step. lia. }
    exists p', w', ([] ++ calls2). split; [done|]. split.
    + apply (scan_post_cons i step (set_s_status SSkipped step) p w w p' w' [] calls2);
        try done.
      * by right.
      * by rewrite app_nil_r.
      * constructor.
    + apply (scan_trace_cons i step (set_s_status SSkipped step) p w w p' w' [] calls2);
        try done.
      * left. split; [by right|done].
      * constructor.
      * cbn; lia.
      * exists []. split; [by rewrite app_nil_r|constructor].
Qed.

Lemma executePipeline_trace p w :
  exists p1 w1 calls,
    scan_post 0 p w p1 w1 calls /\ scan_trace 0 p w p1 w1 calls /\
    ((p_status p1 <> PFailed /\
      let p' := set_p_endTime (S (clock w1)) (set_p_status PCompleted p1) in
      executePipeline (p, w) = (Ok tt, (p', completed_world p' w1))) \/
     (p_status p1 = PFailed /\
      let p' := set_p_endTime (clock w1) p1 in
      executePipeline (p, w) = (Ok tt, (p', failed_world p' w1)))).
Proof.
  destruct (scan_trace_spec (length (steps p)) 0 p w)
    as (p1 & w1 & calls & E & Hpost & Htrace); [lia|].
  exists p1, w1, calls. split; [done|]. split; [done|].
  unfold executePipeline.
  destruct (decide (p_status p1 = PFailed)) as [Hst|Hst]; [right|left]; (split; [done|]).
  - erewrite bind_attempt_ok; [reflexivity|].
    rewrite bind_get_pipeline, (bind_ok _ _ _ _ _ E), bind_get_pipeline.
    rewrite decide_False by (intros Hne; by apply Hne). reflexivity.
  - erewrite bind_attempt_ok; [reflexivity|].
    rewrite bind_get_pipeline, (bind_ok _ _ _ _ _ E), bind_get_pipeline.
    rewrite decide_True by done. reflexivity.
Qed.

Lemma increasing_bound (l : list nat) a n :
  increasing l -> Forall (fun x => a <= x < n) l -> length l <= n - a.
Proof.
  revert a. induction l as [|x l IH]; intros a Hinc Hall; [cbn; lia|].
  destruct Hinc as [Hlt Hinc]. apply Forall_cons_1 in Hall as [Hx Hall].
  assert (Hl : length l <= n - S x).
  { apply IH; [done|]. apply Forall_forall. intros y Hy.
    rewrite Forall_forall in Hlt, Hall. specialize (Hlt y Hy). specialize (Hall y Hy). lia. }
  cbn. lia.
Qed.

(** ** Invariants of a run *)

(** X1: a run neither adds nor removes steps and keeps the identifier,
    owner, start time and triggering user of the pipeline; of every step it
    keeps the id, name, type, dependencies and configuration, and it only
    ever appends to the step's logs. *)
Theorem run_keeps_steps p w :
  exists p' w',
    executePipeline (p, w) = (Ok tt, (p', w')) /\
    length (steps p') = length (steps p) /\
    p_id p' = p_id p /\ deploymentId p' = deploymentId p /\
    p_startTime p' = p_startTime p /\ triggeredBy p' = triggeredBy p /\
    forall j s,
      steps p !! j = Some s ->
      exists s', steps p' !! j = Some s' /\ same_identity s s' /\ logs s `prefix_of` logs s'.
Proof.
  destruct (executePipeline_trace p w) as (p1 & w1 & calls & Hpost & Htrace & Hcase).
  destruct Hpost as [Hlen Hid Hdid _ _ _ _ _ _ _].
  destruct Htrace as [Hvisit _ _ [Hstart Hby] _ _ _ _].
  assert (Hsteps : forall j s,
             steps p !! j = Some s ->
             exists s', steps p1 !! j = Some s' /\ same_identity s s' /\
                        logs s `prefix_of` logs s').
  { intros j s Hs.
    destruct (steps p1 !! j) as [s'|] eqn:Hs'; cycle 1.
    { apply lookup_ge_None in Hs'. apply lookup_lt_Some in Hs. lia. }
    exists s'. split; [done|].
    destruct (Hvisit j s s' Hs Hs') as [[Hnot _]|Hex].
    - split; [by apply not_executed_from_identity|].
      destruct Hnot as [->| ->]; done.
    - split; [by apply executed_from_identity|].
      destruct Hex as (_ & _ & _ & _ & lines & ->). by eexists. }
  destruct Hcase as [[_ E]|[_ E]]; cbn zeta in E;
    eexists _, _; (split; [exact E|]); by repeat split.
Qed.

(** X2: after a run every step is in one of three shapes: exactly as
    before; as before with only the status set to skipped; or executed,
    with status completed or failed, both timestamps set and the log grown
    by a line that begins the step. In the first two shapes no tool was
    called for the step. *)
Theorem run_step_outcomes p w :
  exists p' w' calls,
    executePipeline (p, w) = (Ok tt, (p', w')) /\
    invoked w' = invoked w ++ calls /\
    forall j s s',
      steps p !! j = Some s -> steps p' !! j = Some s' ->
      (not_executed_from s s' /\ not_invoked_for j calls) \/ executed_from s s'.
Proof.
  destruct (executePipeline_trace p w) as (p1 & w1 & calls & Hpost & Htrace & Hcase).
  destruct Hpost as [_ _ _ _ _ _ _ Hinv _ _].
  destruct Htrace as [Hvisit _ _ _ _ _ _ _].
  destruct Hcase as [[_ E]|[_ E]]; cbn zeta in E;
    eexists _, _, calls; (split; [exact E|]); by split.
Qed.

(** X3: the tool calls of a run all carry the id of its pipeline, are made
    for step positions in strictly increasing order (so at most one call per
    step, never for a step behind one already called), and are no more than
    there are steps. *)
Theorem run_tool_calls p w :
  exists p' w' calls,
    executePipeline (p, w) = (Ok tt, (p', w')) /\
    invoked w' = invoked w ++ calls /\
    increasing (call_index <$> calls) /\
    Forall (fun c => call_pipeline c = p_id p /\ call_index c < length (steps p)) calls /\
    length calls <= length (steps p).
Proof.
  destruct (executePipeline_trace p w) as (p1 & w1 & calls & Hpost & Htrace & Hcase).
  destruct Hpost as [_ _ _ _ _ _ _ Hinv Hcalls _].
  destruct Htrace as [_ Hinc Hrange _ _ _ _ _].
  assert (Hboth : Forall (fun c => call_pipeline c = p_id p /\
                                   call_index c < length (steps p)) calls).
  { apply Forall_and. split; [|done].
    eapply Forall_impl; [exact Hcalls|]. by intros c [? _]. }
  assert (Hcount : length calls <= length (steps p)).
  { rewrite <- (length_fmap call_index).
    replace (length (steps p)) with (length (steps p) - 0) by lia.
    apply increasing_bound; [done|]. apply Forall_fmap.
    eapply Forall_impl; [exact Hrange|]. cbn. intros c Hc. lia. }
  destruct Hcase as [[_ E]|[_ E]]; cbn zeta in E;
    eexists _, _, calls; (split; [exact E|]); by repeat split.
Qed.

(** X4: a run writes only its own pipeline document and its own deployment
    document: every other stored pipeline and deployment is as before, and
    so are the queue of pending runs, the timers and the identifier source;
    every event it emits goes to the room of its deployment. *)
Theorem run_touches_own_records p w :
  exists p' w' events,
    executePipeline (p, w) = (Ok tt, (p', w')) /\
    (forall k, k <> p_id p -> pipelines w' !! k = pipelines w !! k) /\
    (forall k, k <> deploymentId p -> deployments w' !! k = deployments w !! k) /\
    background w' = background w /\ timers w' = timers w /\
    uuid_ctr w' = uuid_ctr w /\
    emitted w' = emitted w ++ events /\
    Forall (fun e => room e = "deployment-" +:+ deploymentId p) events.
Proof.
  destruct (executePipeline_trace p w) as (p1 & w1 & calls & Hpost & Htrace & Hcase).
  destruct Hpost as [_ Hid Hdid Hdeps _ _ _ _ _ _].
  destruct Htrace as [_ _ _ _ Hpip [Hbg Htm] (_ & _ & Hctr) (events & Hev & Hroom)].
  destruct Hcase as [[_ E]|[_ E]]; cbn zeta in E;
    eexists _, _, events; (split; [exact E|]);
    unfold completed_world, failed_world; cbn.
  - split; [intros k Hk; rewrite lookup_insert_ne by congruence; by apply Hpip|].
    split; [intros k Hk; rewrite lookup_alter_ne by congruence; by rewrite Hdeps|].
    by repeat split.
  - split; [intros k Hk; rewrite lookup_insert_ne by congruence; by apply Hpip|].
    split; [intros k Hk; rewrite lookup_alter_ne by congruence; by rewrite Hdeps|].
    by repeat split.
Qed.

(** X5: how the status of the pipeline follows its steps: it ends completed
    or failed; when it ends completed it was not failed before and every
    step is completed or skipped; when it ends failed it either was failed
    before the run or some step is failed; and a pipeline that was failed
    before the run ends failed whatever its steps do. *)
Theorem run_status_follows_steps p w :
  exists p' w',
    executePipeline (p, w) = (Ok tt, (p', w')) /\
    (p_status p' = PCompleted \/ p_status p' = PFailed) /\
    (p_status p' = PCompleted ->
     p_status p <> PFailed /\ forall j s, steps p' !! j = Some s -> done_or_skipped s) /\
    (p_status p' = PFailed ->
     p_status p = PFailed \/ exists b s, steps p' !! b = Some s /\ s_status s = SFailed) /\
    (p_status p = PFailed -> p_status p' = PFailed).
Proof.
  destruct (executePipeline_spec p w) as (p1 & w1 & calls & Hpost & Hcase).
  destruct (sp_outcome _ _ _ _ _ _ Hpost) as [[Hsame Hall]|(b & _ & Hst & Hfail & _)];
    destruct Hcase as [[Hne E]|[Hf E]]; cbn zeta in E; try done;
    eexists _, _; (split; [exact E|]); cbn.
  - split; [by left|]. split.
    + intros _. split; [congruence|]. intros j s Hs. apply (Hall j); [lia|done].
    + split; [done|]. intros Hp. congruence.
  - split; [by right|]. split; [congruence|]. split; [|done].
    intros _. left. congruence.
  - split; [by right|]. split; [congruence|]. split; [|done].
    intros _. right. destruct Hfail as (s & Hs & Hs'). by exists b, s.
Qed.

(** ** Error behaviour of one step *)

Lemma runTool_unknown i s p0 w :
  i < length (steps p0) ->
  s_type s ∉ ["clone"; "terraform-plan"; "terraform-apply"; "helm-deploy"; "ansible-run"] ->
  runTool i (set_step i s p0, w) =
    (Throw ("Unknown step type: " +:+ s_type s), (set_step i s p0, w)).
Proof.
  intros Hi Hty. unfold runTool. rewrite bind_the_step, bind_get_pipeline by done.
  repeat case_decide; try done; exfalso; apply Hty; set_solver.
Qed.

(** X6: a step whose type is none of the five the runner knows is not
    executed by any tool: [executeStep] returns normally, the step is failed
    with the log line "Step failed: Unknown step type: <type>", its end
    timestamp is set, and no tool call is made. *)
Theorem unknown_step_type_fails i step p w :
  steps p !! i = Some step ->
  s_type step ∉ ["clone"; "terraform-plan"; "terraform-apply"; "helm-deploy"; "ansible-run"] ->
  exists step' w',
    executeStep i (p, w) = (Ok tt, (set_step i step' p, w')) /\
    s_status step' = SFailed /\
    logs step' = logs step ++ ["Starting step: " +:+ s_name step;
                               "Step failed: Unknown step type: " +:+ s_type step] /\
    is_Some (s_endTime step') /\
    invoked w' = invoked w.
Proof.
  intros Hstep Hty.
  assert (Hi : i < length (steps p)) by (by eapply lookup_lt_Some).
  destruct (executeStep_visit i step p w Hstep)
    as (s1 & calls & E & _ & _ & Hex & Hinv & Hfail).
  rewrite runTool_unknown in Hinv by done. cbn in Hinv.
  assert (calls = []) as ->.
  { apply (app_inv_head (invoked w)). by rewrite app_nil_r. }
  destruct (executeStep_spec i step p w Hstep)
    as (s2 & calls2 & E2 & _ & _ & _ & _ & _ & _ & _ & _ & Hst).
  rewrite E in E2. injection E2 as Hs12 _.
  assert (s1 = s2) as <-.
  { apply (f_equal (fun l : list PipelineStep => l !! i)) in Hs12.
    rewrite !list_lookup_insert_eq in Hs12 by done. congruence. }
  cbn zeta in Hst. rewrite runTool_unknown in Hst by done. cbn in Hst.
  destruct Hst as [(_ & Hok & _)|(Hs & e & He & Hlogs)]; [discriminate|].
  injection He as <-.
  exists s1, (after_step (set_step i s1 p) [] w). split; [exact E|].
  split; [done|]. split; [done|]. split; [by destruct Hex as (_ & _ & _ & ? & _)|].
  cbn. by rewrite app_nil_r.
Qed.

(** X6, witness: the second step of the odd pipeline is of type post-deploy. *)
Lemma unknown_step_type_fails_witness :
  exists step' w',
    executeStep 1 (odd_pipeline, all_succeed_world) =
      (Ok tt, (set_step 1 step' odd_pipeline, w')) /\
    s_status step' = SFailed /\
    logs step' = ["Starting step: Smoke test";
                  "Step failed: Unknown step type: post-deploy"] /\
    is_Some (s_endTime step') /\
    invoked w' = invoked all_succeed_world.
Proof.
  apply (unknown_step_type_fails 1
           (newStep "s2" "Smoke test" "post-deploy" [] JUndefined)
           odd_pipeline all_succeed_world).
  - reflexivity.
  - apply (bool_decide_unpack _). vm_compute. reflexivity.
Defined.

(** ** Runs in which nothing goes wrong *)

Lemma find_step_first (l : list PipelineStep) k sk dep :
  l !! k = Some sk -> s_id sk = dep ->
  exists k0 s0, k0 <= k /\ l !! k0 = Some s0 /\ find_step dep l = Some s0.
Proof.
  revert k. induction l as [|a l IH]; intros k Hk Hid; [done|].
  unfold find_step. cbn. destruct (decide (s_id a = dep)) as [Ha|Ha].
  - rewrite bool_decide_eq_true_2 by done. exists 0, a. split; [lia|]. done.
  - rewrite bool_decide_eq_false_2 by done. destruct k as [|k]; [by simplify_eq/=|].
    destruct (IH k Hk Hid) as (k0 & s0 & Hle & Hl & Hf).
    exists (S k0), s0. split; [lia|]. done.
Qed.

Lemma dependencies_completed (l : list PipelineStep) i step :
  backward_ids l -> l !! i = Some step ->
  (forall j s, j < i -> l !! j = Some s -> s_status s = SCompleted) ->
  areDependenciesCompleted step l = true.
Proof.
  intros Hback Hstep Hdone. unfold areDependenciesCompleted.
  apply forallb_forall. intros dep Hin%list_elem_of_In.
  destruct (Hback i step dep Hstep Hin) as (k & sk & Hk & Hsk & Hid).
  destruct (find_step_first l k sk dep Hsk Hid) as (k0 & s0 & Hle & Hl & ->).
  apply bool_decide_eq_true_2. apply (Hdone k0); [lia|done].
Qed.

Lemma backward_ids_set_step i s1 step p :
  steps p !! i = Some step -> s_id s1 = s_id step ->
  dependencies s1 = dependencies step ->
  backward_ids (steps p) -> backward_ids (steps (set_step i s1 p)).
Proof.
  intros Hstep Hid Hdep Hback j sj dep Hj Hin.
  assert (Hi : i < length (steps p)) by (by eapply lookup_lt_Some).
  assert (Hj' : exists sj0, steps p !! j = Some sj0 /\ dependencies sj0 = dependencies sj).
  { destruct (decide (i = j)) as [<-|Hne].
    - rewrite steps_set_step_eq in Hj by done. simplify_eq. by exists step.
    - rewrite steps_set_step_ne in Hj by done. by exists sj. }
  destruct Hj' as (sj0 & Hsj0 & Hd0). rewrite <- Hd0 in Hin.
  destruct (Hback j sj0 dep Hsj0 Hin) as (k & sk & Hk & Hsk & Hidk).
  destruct (decide (i = k)) as [<-|Hne].
  - exists i, s1. split; [done|]. split; [by apply steps_set_step_eq|].
    simplify_eq. done.
  - exists k, sk. split; [done|]. split; [by rewrite steps_set_step_ne|done].
Qed.

Lemma runTool_succeeds i s p0 w :
  i < length (steps p0) -> runnable s -> tools_succeed w ->
  exists out op,
    runTool i (set_step i s p0, w) =
      (Ok tt, (set_step i (push_logs out s) p0,
               with_invoked (invoked w ++ [mkToolCall (p_id p0) i op]) w)).
Proof.
  intros Hi [Hty Hcfg] Htools. unfold runTool.
  rewrite bind_the_step, bind_get_pipeline by done.
  assert (Hlog : forall op,
             exists out op',
               bind (liftW (call_tool (p_id p0) i op))
                 (fun out => modify_step i (push_logs out)) (set_step i s p0, w) =
               (Ok tt, (set_step i (push_logs out s) p0,
                        with_invoked (invoked w ++ [mkToolCall (p_id p0) i op']) w))).
  { intros op. destruct (Htools (length (invoked w)) op) as [out Hout].
    exists out, op. unfold bind, liftW, call_tool. rewrite Hout.
    by apply modify_step_here. }
  repeat case_decide; try apply Hlog.
  - specialize (Hcfg ltac:(done)).
    assert (Hprop : forall k, @prop (Pipeline * World) k (s_config s)
                              = ret (json_field k (s_config s))).
    { intros k. destruct (s_config s); done. }
    rewrite !Hprop, !bind_ret.
    destruct (Htools (length (invoked w))
                (CloneRepository (json_field "repository" (s_config s))
                   (json_field "branch" (s_config s)))) as [out Hout].
    exists [], (CloneRepository (json_field "repository" (s_config s))
                  (json_field "branch" (s_config s))).
    unfold bind, liftW, call_tool. cbn [p_id]. rewrite Hout. cbn.
    by rewrite push_logs_nil.
  - exfalso. repeat (apply elem_of_cons in Hty as [?|Hty]; [done|]).
    by apply elem_of_nil in Hty.
Qed.

(** One [executeStep] when the step is runnable and the tools succeed. *)
Lemma executeStep_succeeds i step p w :
  steps p !! i = Some step -> runnable step -> tools_succeed w ->
  exists step' call,
    executeStep i (p, w) =
      (Ok tt, (set_step i step' p, after_step (set_step i step' p) [call] w)) /\
    executed_from step step' /\ s_status step' = SCompleted /\
    call_pipeline call = p_id p /\ call_index call = i.
Proof.
  intros Hstep Hrun Htools.
  assert (Hi : i < length (steps p)) by (by eapply lookup_lt_Some).
  destruct (executeStep_visit i step p w Hstep)
    as (s1 & calls & E & Hcalls & _ & Hex & Hinv & Hfail).
  destruct (runTool_succeeds i (mark_running (clock w) step) p
              (with_clock (S (clock w)) w) Hi) as (out & op & Hok); [done|done|].
  rewrite Hok in Hinv. cbn in Hinv. apply app_inv_head in Hinv. subst calls.
  exists s1, (mkToolCall (p_id p) i op). split; [exact E|]. split; [done|].
  split; [|done].
  destruct Hex as (_ & [Hc|Hf] & _); [done|].
  destruct (Hfail Hf) as (e & He & _). unfold executor_throws in He.
  rewrite Hok in He. discriminate He.
Qed.

Lemma scan_all_succeed n :
  forall i p w,
    length (steps p) <= i + n -> tools_succeed w ->
    (forall j s, steps p !! j = Some s -> runnable s) ->
    backward_ids (steps p) ->
    (forall j s, j < i -> steps p !! j = Some s -> s_status s = SCompleted) ->
    exists p' w' calls,
      scan n i (p, w) = (Ok tt, (p', w')) /\
      invoked w' = invoked w ++ calls /\
      call_index <$> calls = seq i (length (steps p) - i) /\
      p_status p' = p_status p /\
      forall j s, steps p' !! j = Some s -> s_status s = SCompleted.
Proof.
  induction n as [|n IH]; intros i p w Hlen Htools Hrun Hback Hdone.
  { exists p, w, []. split; [done|]. split; [by rewrite app_nil_r|].
    replace (length (steps p) - i) with 0 by lia. split; [done|]. split; [done|].
    intros j s Hs. apply (Hdone j); [|done]. apply lookup_lt_Some in Hs. lia. }
  cbn [scan]. rewrite bind_get_pipeline.
  destruct (steps p !! i) as [step|] eqn:Hstep; cycle 1.
  { apply lookup_ge_None in Hstep.
    exists p, w, []. split; [done|]. split; [by rewrite app_nil_r|].
    replace (length (steps p) - i) with 0 by lia. split; [done|]. split; [done|].
    intros j s Hs. apply (Hdone j); [|done]. apply lookup_lt_Some in Hs. lia. }
  assert (Hi : i < length (steps p)) by (by eapply lookup_lt_Some).
  rewrite (dependencies_completed (steps p) i step) by done. cbn [negb].
  destruct (executeStep_succeeds i step p w Hstep) as (s1 & call & E & Hex & Hst & Hcp & Hci);
    [by eapply Hrun|done|].
  destruct Hex as ((Hid & _ & Hty & Hdep & Hcfg) & _).
  rewrite (bind_ok _ _ _ _ _ E), bind_get_pipeline, bind_the_step, bind_emit by done.
  rewrite decide_False by congruence.
  set (w1 := with_emitted _ _).
  destruct (IH (S i) (set_step i s1 p) w1) as (p' & w' & calls2 & E2 & Hinv & Hidx & Hps & Hall).
  - rewrite length_set_step. lia.
  - intros k op. apply Htools.
  - intros j s Hs. destruct (decide (i = j)) as [<-|Hne].
    + rewrite steps_set_step_eq in Hs by done. injection Hs as <-.
      destruct (Hrun i step Hstep) as [H1 H2]. split; [by rewrite Hty|].
      rewrite Hty, Hcfg. done.
    + rewrite steps_set_step_ne in Hs by done. by eapply Hrun.
  - by eapply backward_ids_set_step.
  - intros j s Hj Hs. destruct (decide (i = j)) as [<-|Hne].
    + rewrite steps_set_step_eq in Hs by done. by injection Hs as <-.
    + rewrite steps_set_step_ne in Hs by done. apply (Hdone j); [lia|done].
  - exists p', w', (call :: calls2). split; [exact E2|]. split.
    { rewrite Hinv. subst w1. cbn. by rewrite <- app_assoc. }
    split.
    { cbn. rewrite Hidx, Hci, length_set_step.
      replace (length (steps p) - i) with (S (length (steps p) - S i)) by lia. done. }
    split; [exact Hps|done].
Qed.

(** The end of [executePipeline], given what its scan returned. *)
Lemma executePipeline_of_scan p w p1 w1 :
  scan (length (steps p)) 0 (p, w) = (Ok tt, (p1, w1)) ->
  executePipeline (p, w) =
    if decide (p_status p1 = PFailed)
    then (Ok tt, (set_p_endTime (clock w1) p1,
                  failed_world (set_p_endTime (clock w1) p1) w1))
    else (Ok tt, (set_p_endTime (S (clock w1)) (set_p_status PCompleted p1),
                  completed_world (set_p_endTime (S (clock w1)) (set_p_status PCompleted p1))
                    w1)).
Proof.
  intros E. unfold executePipeline.
  destruct (decide (p_status p1 = PFailed)) as [Hst|Hst].
  - erewrite bind_attempt_ok; [reflexivity|].
    rewrite bind_get_pipeline, (bind_ok _ _ _ _ _ E), bind_get_pipeline.
    rewrite decide_False by (intros Hne; by apply Hne). reflexivity.
  - erewrite bind_attempt_ok; [reflexivity|].
    rewrite bind_get_pipeline, (bind_ok _ _ _ _ _ E), bind_get_pipeline.
    rewrite decide_True by done. reflexivity.
Qed.

Lemma executePipeline_all_succeed p w :
  tools_succeed w -> Forall runnable (steps p) -> backward_ids (steps p) ->
  p_status p <> PFailed ->
  exists p1 w1 calls,
    let p' := set_p_endTime (S (clock w1)) (set_p_status PCompleted p1) in
    executePipeline (p, w) = (Ok tt, (p', completed_world p' w1)) /\
    scan_post 0 p w p1 w1 calls /\ scan_trace 0 p w p1 w1 calls /\
    call_index <$> calls = seq 0 (length (steps p)) /\
    forall j s, steps p1 !! j = Some s -> s_status s = SCompleted.
Proof.
  intros Htools Hrun Hback Hst.
  assert (H1 : length (steps p) <= 0 + length (steps p)) by lia.
  assert (H2 : forall j s, steps p !! j = Some s -> runnable s).
  { intros j s Hs. rewrite Forall_lookup in Hrun. by eapply Hrun. }
  assert (H3 : forall j s, j < 0 -> steps p !! j = Some s -> s_status s = SCompleted)
    by (intros; lia).
  destruct (scan_all_succeed (length (steps p)) 0 p w H1 Htools H2 Hback H3)
    as (p1 & w1 & calls & E & Hinv & Hidx & Hps & Hall).
  destruct (scan_trace_spec (length (steps p)) 0 p w)
    as (p1' & w1' & calls' & E' & Hpost & Htrace); [lia|].
  rewrite E in E'. injection E' as <- <-.
  assert (calls' = calls) as ->.
  { apply (app_inv_head (invoked w)). by rewrite <- (sp_invoked _ _ _ _ _ _ Hpost). }
  exists p1, w1, calls. cbn zeta.
  rewrite (executePipeline_of_scan p w p1 w1 E).
  rewrite decide_False by congruence. split; [done|]. split; [done|]. split; [done|].
  split; [|done]. by rewrite Hidx, Nat.sub_0_r.
Qed.

(** X7: when every tool call is answered with output, a run of a pipeline
    whose steps are all runnable and whose dependencies name earlier steps
    completes every step and the pipeline, calling exactly one tool per
    step, in the order of the steps. *)
Theorem run_all_succeed p w :
  tools_succeed w -> Forall runnable (steps p) -> backward_ids (steps p) ->
  p_status p <> PFailed ->
  exists p' w' calls,
    executePipeline (p, w) = (Ok tt, (p', w')) /\
    invoked w' = invoked w ++ calls /\
    call_index <$> calls = seq 0 (length (steps p)) /\
    p_status p' = PCompleted /\
    length (steps p') = length (steps p) /\
    forall j s, steps p' !! j = Some s -> s_status s = SCompleted.
Proof.
  intros Htools Hrun Hback Hst.
  destruct (executePipeline_all_succeed p w Htools Hrun Hback Hst)
    as (p1 & w1 & calls & E & Hpost & _ & Hidx & Hall). cbn zeta in E.
  eexists _, _, calls. split; [exact E|]. cbn.
  split; [exact (sp_invoked _ _ _ _ _ _ Hpost)|]. split; [done|]. split; [done|].
  split; [exact (sp_length _ _ _ _ _ _ Hpost)|done].
Qed.

(** The dependencies of a chain name the step right before. *)
Lemma chain_backward_ids l : chain_from None l -> backward_ids l.
Proof.
  intros Hchain j sj dep Hj Hin.
  destruct (chain_from_lookup _ _ _ _ Hchain Hj) as [Hd Hk].
  destruct j as [|k]; [cbn in Hd; rewrite Hd in Hin; by apply elem_of_nil in Hin|].
  destruct (Hk k eq_refl) as [prev Hprev].
  rewrite (ids_at_singleton _ _ _ Hprev) in Hd. rewrite Hd in Hin.
  apply list_elem_of_singleton in Hin as ->. exists k, prev. split; [lia|done].
Qed.

(** What the builder returns, in one statement: a chain of fresh, runnable
    steps, and a world in which only identifiers were drawn. *)
Lemma buildPipelineSteps_fresh d w :
  exists l,
    buildPipelineSteps d w = (Ok l, with_uuid_ctr (length l + uuid_ctr w) w) /\
    chain_from None l /\ Forall runnable l /\ l <> [] /\
    Forall (fun s => s_status s = SPending /\ s_startTime s = None /\
                     s_endTime s = None /\ logs s = []) l.
Proof.
  build_cases d; eexists;
    (split; [apply (f_equal2 pair); [reflexivity | unfold with_uuid_ctr; cbn; reflexivity] |]);
    (split; [cbn; by repeat split|]);
    (split; [repeat (constructor; [split; [apply (bool_decide_unpack _); vm_compute; reflexivity|]; try done; cbn; congruence|]); constructor|]);
    (split; [done|]);
    repeat (constructor; [by repeat split|]); constructor.
Qed.

(** X7, witness: the pipeline built for the deployment with all three
    sections, in a world whose tools all succeed. *)
Lemma run_all_succeed_witness :
  exists p' w' calls,
    executePipeline (sample_pipeline PRunning (built full_deployment full_world), full_world)
      = (Ok tt, (p', w')) /\
    invoked w' = invoked full_world ++ calls /\
    call_index <$> calls = seq 0 5 /\
    p_status p' = PCompleted /\
    length (steps p') = 5 /\
    forall j s, steps p' !! j = Some s -> s_status s = SCompleted.
Proof.
  apply (run_all_succeed (sample_pipeline PRunning (built full_deployment full_world))
           full_world).
  - intros n op. by eexists.
  - apply (bool_decide_unpack _). vm_compute. reflexivity.
  - apply chain_backward_ids. vm_compute. by repeat split.
  - discriminate.
Defined.

(** ** From trigger to the end of the run *)

(** The world [startPipeline] leaves for a stored deployment. *)
Lemma startPipeline_world id by_ w d :
  deployments w !! id = Some d ->
  exists l,
    let pid := uuid_src w (uuid_ctr w) in
    let pipeline := mkPipeline pid id PRunning l (Some (clock w)) None by_ in
    startPipeline id by_ w =
      (Ok pid,
       with_background (background w ++ [pipeline])
         (with_pipelines (<[pid := pipeline]> (pipelines w))
            (with_clock (S (clock w))
               (with_uuid_ctr (length l + S (uuid_ctr w))
                  (with_deployments (<[d_id d := set_d_status DRunning d]> (deployments w))
                     w))))) /\
    chain_from None l /\ Forall runnable l /\ l <> [] /\
    Forall (fun s => s_status s = SPending /\ s_startTime s = None /\
                     s_endTime s = None /\ logs s = []) l.
Proof.
  intros H. unfold startPipeline.
  set (d' := set_d_status DRunning d).
  set (w0 := with_deployments (<[d_id d := d']> (deployments w))
               (with_uuid_ctr (S (uuid_ctr w)) w)).
  destruct (buildPipelineSteps_fresh d' w0) as (l & E & Hchain & Hrun & Hne & Hfresh).
  exists l. cbn zeta. split; [|done].
  unfold bind at 1. cbn [uuidv4].
  erewrite bind_attempt_ok; cycle 1.
  { unfold bind at 1, Deployment_find. cbn [deployments with_uuid_ctr]. rewrite H.
    unfold bind at 1, Deployment_save. cbn [deployments with_uuid_ctr].
    fold d'. fold w0. rewrite (bind_ok _ _ _ _ _ E). reflexivity. }
  reflexivity.
Qed.

(** X8: trigger to completion. For a stored deployment, when every tool call
    is answered with output and no other run is queued, [startPipeline]
    followed by the queued run leaves the new pipeline completed with every
    step completed, the deployment completed with its last-deployed-at set,
    one tool call per step, and the queue empty. *)
Theorem start_then_run_completes id by_ w d :
  deployments w !! id = Some d -> d_id d = id ->
  tools_succeed w -> background w = [] ->
  exists w' p' d' calls,
    run_background (snd (startPipeline id by_ w)) = (Ok tt, w') /\
    fst (startPipeline id by_ w) = Ok (p_id p') /\
    pipelines w' !! p_id p' = Some p' /\
    p_status p' = PCompleted /\ deploymentId p' = id /\ is_Some (p_endTime p') /\
    steps p' <> [] /\
    (forall j s, steps p' !! j = Some s -> s_status s = SCompleted) /\
    deployments w' !! id = Some d' /\
    d_status d' = DCompleted /\ is_Some (lastDeployedAt d') /\
    invoked w' = invoked w ++ calls /\ length calls = length (steps p') /\
    background w' = [].
Proof.
  intros Hd Hid Htools Hbg.
  destruct (startPipeline_world id by_ w d Hd) as (l & E & Hchain & Hrun & Hne & _).
  cbn zeta in E. rewrite E. cbn [fst snd]. rewrite Hbg. cbn [app].
  set (pid := uuid_src w (uuid_ctr w)) in *.
  set (pl := mkPipeline pid id PRunning l (Some (clock w)) None by_) in *.
  unfold run_background. cbn [background with_background].
  set (w0 := with_background [] _).
  assert (Ht0 : tools_succeed w0) by (intros n op; apply Htools).
  destruct (executePipeline_all_succeed pl w0 Ht0)
    as (p1 & w1 & calls & Ex & Hpost & Htrace & Hidx & Hall);
    [done|by apply chain_backward_ids|discriminate|].
  cbn zeta in Ex. rewrite Ex.
  destruct Hpost as [Hlen Hpid Hdid Hdeps _ _ _ Hinv _ _].
  eexists _, (set_p_endTime (S (clock w1)) (set_p_status PCompleted p1)),
    (set_lastDeployedAt (clock w1) (set_d_status DCompleted (set_d_status DRunning d))),
    calls.
  split; [reflexivity|]. cbn.
  split; [by rewrite Hpid|]. split; [by rewrite lookup_insert_eq|].
  split; [done|]. split; [done|]. split; [by eexists|].
  split.
  { intros Hnil. apply (f_equal length) in Hnil. rewrite Hlen in Hnil.
    by destruct l. }
  split; [done|]. split.
  { rewrite Hdid, lookup_alter_eq, Hdeps. cbn. by rewrite Hid, lookup_insert_eq. }
  split; [done|]. split; [by eexists|]. split; [by rewrite Hinv|].
  split.
  { rewrite Hlen. apply (f_equal length) in Hidx.
    by rewrite length_fmap, length_seq in Hidx. }
  by destruct (st_queue _ _ _ _ _ _ Htrace) as [-> _].
Qed.

(** X8, witness: the deployment with all three sections, nothing queued. *)
Lemma start_then_run_completes_witness :
  exists w' p' d' calls,
    run_background (snd (startPipeline "d1" "alice" full_world)) = (Ok tt, w') /\
    fst (startPipeline "d1" "alice" full_world) = Ok (p_id p') /\
    pipelines w' !! p_id p' = Some p' /\
    p_status p' = PCompleted /\ deploymentId p' = "d1" /\ is_Some (p_endTime p') /\
    steps p' <> [] /\
    (forall j s, steps p' !! j = Some s -> s_status s = SCompleted) /\
    deployments w' !! "d1" = Some d' /\
    d_status d' = DCompleted /\ is_Some (lastDeployedAt d') /\
    invoked w' = invoked full_world ++ calls /\ length calls = length (steps p') /\
    background w' = [].
Proof.
  apply (start_then_run_completes "d1" "alice" full_world full_deployment).
  - vm_compute. reflexivity.
  - reflexivity.
  - intros n op. by eexists.
  - reflexivity.
Defined.

(** X9: a cancel does not stop a run. When a stored running pipeline is
    cancelled and its run then comes to its end, the run saves the pipeline
    as completed or failed again, with a new end timestamp, and gives the
    deployment that status: neither is left cancelled. *)
Theorem cancel_then_run_overwrites pid p w d :
  pipelines w !! pid = Some p -> p_id p = pid -> p_status p = PRunning ->
  deployments w !! deploymentId p = Some d ->
  exists w1 p' w' d',
    cancelPipeline pid w = (Ok tt, w1) /\
    p_status <$> pipelines w1 !! pid = Some PCancelled /\
    d_status <$> deployments w1 !! deploymentId p = Some DCancelled /\
    executePipeline (p, w1) = (Ok tt, (p', w')) /\
    pipelines w' !! pid = Some p' /\
    deployments w' !! deploymentId p = Some d' /\
    ((p_status p' = PCompleted /\ d_status d' = DCompleted) \/
     (p_status p' = PFailed /\ d_status d' = DFailed)) /\
    exists t, p_endTime p' = Some t /\ clock w < t.
Proof.
  intros Hp Hid Hst Hd.
  rewrite (cancelPipeline_running pid p w Hp Hst). cbn zeta.
  set (w1 := with_deployments _ _).
  assert (Hd1 : deployments w1 !! deploymentId p = Some (set_d_status DCancelled d)).
  { subst w1. cbn. by rewrite lookup_alter_eq, Hd. }
  destruct (executePipeline_spec p w1) as (p1 & w2 & calls & Hpost & Hcase).
  destruct Hpost as [_ Hpid Hdid Hdeps Hclock _ _ _ _ _].
  assert (Hc1 : clock w1 = S (clock w)) by done.
  destruct Hcase as [[Hne E]|[Hf E]]; cbn zeta in E.
  - eexists w1, _, _, (set_lastDeployedAt (clock w2) (set_d_status DCompleted
                                                        (set_d_status DCancelled d))).
    split; [done|]. split; [subst w1; cbn; by rewrite Hid, lookup_insert_eq|].
    split; [by rewrite Hd1|]. split; [exact E|]. unfold completed_world. cbn.
    split; [by rewrite Hpid, Hid, lookup_insert_eq|].
    split; [by rewrite Hdid, lookup_alter_eq, Hdeps, Hd1|].
    split; [by left|]. eexists. split; [done|]. lia.
  - eexists w1, _, _, (set_d_status DFailed (set_d_status DCancelled d)).
    split; [done|]. split; [subst w1; cbn; by rewrite Hid, lookup_insert_eq|].
    split; [by rewrite Hd1|]. split; [exact E|]. unfold failed_world. cbn.
    split; [by rewrite Hpid, Hid, lookup_insert_eq|].
    split; [by rewrite Hdid, lookup_alter_eq, Hdeps, Hd1|].
    split; [by right|]. eexists. split; [done|]. lia.
Qed.

(** X9, witness: the stored running pipeline and its deployment. *)
Lemma cancel_then_run_overwrites_witness :
  exists w1 p' w' d',
    cancelPipeline "p1" (world_with running_pipeline) = (Ok tt, w1) /\
    p_status <$> pipelines w1 !! "p1" = Some PCancelled /\
    d_status <$> deployments w1 !! "d1" = Some DCancelled /\
    executePipeline (running_pipeline, w1) = (Ok tt, (p', w')) /\
    pipelines w' !! "p1" = Some p' /\
    deployments w' !! "d1" = Some d' /\
    ((p_status p' = PCompleted /\ d_status d' = DCompleted) \/
     (p_status p' = PFailed /\ d_status d' = DFailed)) /\
    exists t, p_endTime p' = Some t /\ 100 < t.
Proof.
  apply (cancel_then_run_overwrites "p1" running_pipeline (world_with running_pipeline)
           helm_deployment).
  - vm_compute. reflexivity.
  - reflexivity.
  - reflexivity.
  - vm_compute. reflexivity.
Defined.

(** ** The facade *)

(** X10: the two outcomes of [startPipeline]. For an identifier under which
    no deployment is stored it throws "Deployment <id> not found" and leaves
    both stores and the queue as they were. Otherwise it returns an
    identifier under which [getPipeline] finds a running pipeline owned by
    the deployment, triggered by the given user, without end time, whose
    steps are all pending without timestamps or logs; the deployment is
    stored as running and the pipeline is queued for its run. *)
Theorem startPipeline_outcomes id by_ w :
  match deployments w !! id with
  | None =>
      exists w',
        startPipeline id by_ w = (Throw ("Deployment " +:+ id +:+ " not found"), w') /\
        pipelines w' = pipelines w /\ deployments w' = deployments w /\
        background w' = background w
  | Some d =>
      exists pid w' pl,
        startPipeline id by_ w = (Ok pid, w') /\
        getPipeline pid w' = (Ok (Some pl), w') /\
        p_id pl = pid /\ deploymentId pl = id /\ p_status pl = PRunning /\
        triggeredBy pl = by_ /\ p_endTime pl = None /\ steps pl <> [] /\
        Forall (fun s => s_status s = SPending /\ s_startTime s = None /\
                         s_endTime s = None /\ logs s = []) (steps pl) /\
        d_status <$> deployments w' !! d_id d = Some DRunning /\
        background w' = background w ++ [pl]
  end.
Proof.
  destruct (deployments w !! id) as [d|] eqn:Hd.
  - destruct (startPipeline_world id by_ w d Hd) as (l & E & _ & _ & Hne & Hfresh).
    cbn zeta in E. eexists _, _, _. split; [exact E|].
    unfold getPipeline, Pipeline_findOne. cbn. rewrite !lookup_insert_eq.
    by repeat split.
  - eexists. split; [by apply startPipeline_not_found|]. by repeat split.
Qed.

(** ** Dependencies *)

Lemma executed_from_not_left s s' : not_executed_from s s' -> executed_from s s' -> False.
Proof.
  intros Hnot (_ & _ & _ & _ & lines & Hlogs).
  assert (Heq : logs s' = logs s) by (destruct Hnot as [->| ->]; done).
  rewrite Heq in Hlogs. apply (f_equal length) in Hlogs.
  rewrite length_app in Hlogs. cbn in Hlogs. lia.
Qed.

Lemma reached_now i s1 p p' :
  i < length (steps p) ->
  (forall k, k < S i -> steps p' !! k = steps (set_step i s1 p) !! k) ->
  reached p p p' i.
Proof.
  intros Hi Hbefore. split; try done.
  - intros k s Hs. by exists s.
  - intros k Hk. rewrite Hbefore by lia. apply steps_set_step_ne; lia.
Qed.

Lemma reached_later i j step s1 p pj p' :
  steps p !! i = Some step -> s_id s1 = s_id step -> i <> j ->
  reached (set_step i s1 p) pj p' j -> reached p pj p' j.
Proof.
  intros Hstep Hid Hne [Hlen Hids Hhere Hbefore].
  assert (Hi : i < length (steps p)) by (by eapply lookup_lt_Some).
  split.
  - by rewrite Hlen, length_set_step.
  - intros k s Hs. destruct (decide (k = i)) as [->|Hk].
    + destruct (Hids i s1) as (s2 & Hs2 & Hid2); [by apply steps_set_step_eq|].
      exists s2. split; [done|]. simplify_eq. congruence.
    + apply Hids. by rewrite steps_set_step_ne.
  - rewrite Hhere. apply steps_set_step_ne. done.
  - done.
Qed.

(** A step that the scan executed had its dependencies completed in the
    pipeline as it was when the scan reached it. *)
Lemma scan_executed n :
  forall i p w p' w',
    length (steps p) <= i + n ->
    scan n i (p, w) = (Ok tt, (p', w')) ->
    forall j sj s',
      i <= j -> steps p !! j = Some sj -> steps p' !! j = Some s' ->
      executed_from sj s' ->
      exists pj, reached p pj p' j /\ areDependenciesCompleted sj (steps pj) = true.
Proof.
  induction n as [|n IH]; intros i p w p' w' Hlen E j sj s' Hij Hs Hs' Hex.
  { cbn [scan] in E. unfold ret in E. simplify_eq. exfalso. eapply executed_from_not_left; [|exact Hex]. by left. }
  cbn [scan] in E. rewrite bind_get_pipeline in E.
  destruct (steps p !! i) as [step|] eqn:Hstep; cycle 1.
  { cbn [scan] in E. unfold ret in E. simplify_eq. exfalso. eapply executed_from_not_left; [|exact Hex]. by left. }
  assert (Hi : i < length (steps p)) by (by eapply lookup_lt_Some).
  destruct (areDependenciesCompleted step (steps p)) eqn:Hdeps; cbn [negb] in E.
  - destruct (executeStep_visit i step p w Hstep)
      as (s1 & calls1 & E1 & _ & _ & Hex1 & _ & _).
    pose proof Hex1 as ((Hid & _) & _).
    rewrite (bind_ok _ _ _ _ _ E1), bind_get_pipeline, bind_the_step, bind_emit in E by done.
    case_decide as Hfailed.
    + unfold modify_pipeline in E. injection E as <- <-.
      destruct (decide (j = i)) as [->|Hne].
      * simplify_eq. exists p. split; [|done].
        apply (reached_now i s1); [done|]. done.
      * cbn in Hs'. rewrite steps_set_step_ne in Hs' by done. simplify_eq.
        exfalso. eapply executed_from_not_left; [|exact Hex]. by left.
    + match type of E with
      | scan _ _ (?P, ?W) = _ =>
          destruct (scan_spec n (S i) P W) as (p2 & w2 & calls2 & E2 & Hpost);
            [rewrite length_set_step; lia|]
      end.
      rewrite E in E2. injection E2 as <- <-.
      destruct (decide (j = i)) as [->|Hne].
      * simplify_eq. exists p. split; [|done].
        apply (reached_now i s1); [done|]. exact (sp_before _ _ _ _ _ _ Hpost).
      * assert (Hb : length (steps (set_step i s1 p)) <= S i + n)
          by (rewrite length_set_step; lia).
        destruct (IH (S i) _ _ _ _ Hb E j sj s')
          as (pj & Hr & Hd); [lia|by rewrite steps_set_step_ne|done|done|].
        exists pj. split; [|done]. by apply (reached_later i j step s1).
  - replace (p, w) with (set_step i step p, w) in E by (by rewrite set_step_same).
    rewrite bind_modify_step in E by done.
    destruct (scan_spec n (S i) (set_step i (set_s_status SSkipped step) p) w)
      as (p2 & w2 & calls2 & E2 & Hpost); [rewrite length_set_step; lia|].
    rewrite E in E2. injection E2 as <- <-.
    destruct (decide (j = i)) as [->|Hne].
    + simplify_eq. exfalso.
      rewrite (sp_before _ _ _ _ _ _ Hpost) in Hs' by lia.
      rewrite steps_set_step_eq in Hs' by done. simplify_eq.
      eapply executed_from_not_left; [|exact Hex]. by right.
    + assert (Hb : length (steps (set_step i (set_s_status SSkipped step) p)) <= S i + n)
        by (rewrite length_set_step; lia).
      destruct (IH (S i) _ _ _ _ Hb E j sj s')
        as (pj & Hr & Hd); [lia|by rewrite steps_set_step_ne|done|done|].
      exists pj. split; [|done].
      by apply (reached_later i j step (set_s_status SSkipped step)).
Qed.

Lemma find_step_id dep (l : list PipelineStep) d :
  find_step dep l = Some d -> s_id d = dep /\ exists k, l !! k = Some d.
Proof.
  unfold find_step. intros [Hin Hb]%find_some. split.
  - by apply bool_decide_eq_true_1 in Hb.
  - apply list_elem_of_In in Hin. by apply list_elem_of_lookup_1 in Hin.
Qed.

(** X11: a run executes a step only after its dependencies. In a pipeline
    whose dependencies name earlier steps, every step that a run executed
    has, for each of its dependencies, an earlier step of that id that the
    run left completed; so a step is never executed when such a step ended
    failed or skipped or was not reached. *)
Theorem executed_after_dependencies p w :
  backward_ids (steps p) ->
  exists p' w',
    executePipeline (p, w) = (Ok tt, (p', w')) /\
    forall j sj s' dep,
      steps p !! j = Some sj -> steps p' !! j = Some s' -> executed_from sj s' ->
      dep ∈ dependencies sj ->
      exists k d, k < j /\ steps p' !! k = Some d /\ s_id d = dep /\ s_status d = SCompleted.
Proof.
  intros Hback.
  destruct (scan_spec (length (steps p)) 0 p w) as (p1 & w1 & calls & E & Hpost); [lia|].
  assert (Hgoal : forall j sj s' dep,
             steps p !! j = Some sj -> steps p1 !! j = Some s' -> executed_from sj s' ->
             dep ∈ dependencies sj ->
             exists k d, k < j /\ steps p1 !! k = Some d /\ s_id d = dep /\
                         s_status d = SCompleted).
  { intros j sj s' dep Hs Hs' Hex Hin.
    destruct (scan_executed _ 0 p w p1 w1 (Nat.le_refl _) E j sj s' (Nat.le_0_l j) Hs Hs' Hex)
      as (pj & Hr & Hdeps).
    unfold areDependenciesCompleted in Hdeps. rewrite forallb_forall in Hdeps.
    apply list_elem_of_In in Hin. specialize (Hdeps dep Hin). apply list_elem_of_In in Hin.
    destruct (Hback j sj dep Hs Hin) as (k & sk & Hk & Hsk & Hid).
    destruct (rc_ids _ _ _ _ Hr k sk Hsk) as (s2 & Hs2 & Hid2).
    destruct (find_step_first (steps pj) k s2 dep Hs2 ltac:(congruence))
      as (k0 & s0 & Hle & Hl & Hf).
    rewrite Hf in Hdeps. apply bool_decide_eq_true_1 in Hdeps.
    exists k0, s0. split; [lia|].
    split; [by rewrite (rc_before _ _ _ _ Hr) by lia|].
    split; [by apply (find_step_id dep (steps pj))|done]. }
  rewrite (executePipeline_of_scan p w p1 w1 E).
  case_decide; eexists _, _; (split; [reflexivity|]); exact Hgoal.
Qed.

(** X11, witness: the pipeline built for a deployment with a helm section. *)
Lemma executed_after_dependencies_witness :
  exists p' w',
    executePipeline (helm_pipeline, all_succeed_world) = (Ok tt, (p', w')) /\
    forall j sj s' dep,
      steps helm_pipeline !! j = Some sj -> steps p' !! j = Some s' ->
      executed_from sj s' -> dep ∈ dependencies sj ->
      exists k d, k < j /\ steps p' !! k = Some d /\ s_id d = dep /\ s_status d = SCompleted.
Proof.
  apply (executed_after_dependencies helm_pipeline all_succeed_world).
  apply chain_backward_ids. vm_compute. done.
Defined.

(** X12: a dependency that names no step of the pipeline blocks its step
    for good: a run calls no tool for the step and leaves it as it was or
    only marks it skipped. *)
Theorem dangling_dependency_blocks p w j sj dep :
  steps p !! j = Some sj -> dep ∈ dependencies sj ->
  (forall k sk, steps p !! k = Some sk -> s_id sk <> dep) ->
  exists p' w' calls s',
    executePipeline (p, w) = (Ok tt, (p', w')) /\
    invoked w' = invoked w ++ calls /\ not_invoked_for j calls /\
    steps p' !! j = Some s' /\ not_executed_from sj s'.
Proof.
  intros Hs Hin Hno.
  destruct (scan_trace_spec (length (steps p)) 0 p w)
    as (p1 & w1 & calls & E & Hpost & Htrace); [lia|].
  destruct (steps p1 !! j) as [s'|] eqn:Hs'; cycle 1.
  { apply lookup_ge_None in Hs'. apply lookup_lt_Some in Hs.
    rewrite (sp_length _ _ _ _ _ _ Hpost) in Hs'. lia. }
  assert (Hleft : not_executed_from sj s' /\ not_invoked_for j calls).
  { destruct (st_visit _ _ _ _ _ _ Htrace j sj s' Hs Hs') as [Hleft|Hex]; [done|].
    exfalso.
    destruct (scan_executed _ 0 p w p1 w1 (Nat.le_refl _) E j sj s' (Nat.le_0_l j) Hs Hs' Hex)
      as (pj & Hr & Hdeps).
    unfold areDependenciesCompleted in Hdeps. rewrite forallb_forall in Hdeps.
    apply list_elem_of_In in Hin. specialize (Hdeps dep Hin).
    destruct (find_step dep (steps pj)) as [d|] eqn:Hf; [|done].
    apply find_step_id in Hf as [Hid [k Hk]].
    assert (Hlt : k < length (steps p)).
    { rewrite <- (rc_length _ _ _ _ Hr). by eapply lookup_lt_Some. }
    apply lookup_lt_is_Some_2 in Hlt as [sk Hsk].
    destruct (rc_ids _ _ _ _ Hr k sk Hsk) as (s2 & Hs2 & Hid2).
    apply (Hno k sk Hsk). congruence. }
  destruct Hleft as [Hnot Hnone].
  rewrite (executePipeline_of_scan p w p1 w1 E).
  case_decide; eexists _, _, calls, s'; (split; [reflexivity|]);
    (split; [exact (sp_invoked _ _ _ _ _ _ Hpost)|]); by repeat split.
Qed.

(** X12, witness: the third step of the odd pipeline depends on "s9". *)
Lemma dangling_dependency_blocks_witness :
  exists p' w' calls s',
    executePipeline (odd_pipeline, all_succeed_world) = (Ok tt, (p', w')) /\
    invoked w' = invoked all_succeed_world ++ calls /\ not_invoked_for 2 calls /\
    steps p' !! 2 = Some s' /\
    not_executed_from (newStep "s3" "Helm Deploy" "helm-deploy" ["s9"] (JObj helm_section)) s'.
Proof.
  apply (dangling_dependency_blocks odd_pipeline all_succeed_world 2 _ "s9").
  - reflexivity.
  - apply list_elem_of_singleton. reflexivity.
  - intros k sk Hk.
    destruct k as [|[|[|k]]]; cbn in Hk; simplify_eq; cbn; congruence.
Defined.

(** ** The builder, in closed form *)

(** X13: the types of the built steps are clone, then terraform-plan and
    terraform-apply when there is a terraform section, then helm-deploy when
    there is a helm section, then ansible-run when there is an ansible
    section; their ids are the identifiers drawn one after the other from
    the source, and the builder changes nothing but the position of that
    source. *)
Theorem buildPipelineSteps_types_ids d w :
  exists l,
    buildPipelineSteps d w = (Ok l, with_uuid_ctr (length l + uuid_ctr w) w) /\
    s_type <$> l =
      ["clone"] ++
      (if terraform (config d) is Some _ then ["terraform-plan"; "terraform-apply"] else []) ++
      (if helm (config d) is Some _ then ["helm-deploy"] else []) ++
      (if ansible (config d) is Some _ then ["ansible-run"] else []) /\
    s_id <$> l = (fun k => uuid_src w (k + uuid_ctr w)) <$> seq 0 (length l).
Proof.
  build_cases d; eexists;
    (split; [apply (f_equal2 pair); [reflexivity | unfold with_uuid_ctr; cbn; reflexivity] |]);
    split; reflexivity.
Qed.

(** ** The handlers *)

(** X14: the trigger handler always answers and never throws, calls no tool
    and queues no run of the orchestrator; an answer other than 200 leaves
    the world as it was; 200 is answered only for a stored deployment that
    is not running, and carries the next identifier of the source. *)
Theorem trigger_route_answers id email w :
  exists resp w',
    trigger_route id email w = (Ok resp, w') /\
    invoked w' = invoked w /\ background w' = background w /\
    (http_status resp <> 200 -> w' = w) /\
    (http_status resp = 200 ->
     data_pipelineId resp = Some (uuid_src w (uuid_ctr w)) /\
     exists d, deployments w !! id = Some d /\ d_status d <> DRunning).
Proof.
  destruct (deployments w !! id) as [d|] eqn:Hd;
    [destruct (decide (d_status d = DRunning)) as [Hr|Hr]|].
  - rewrite (trigger_route_conflict id email w d Hd Hr).
    eexists _, _. split; [reflexivity|]. by repeat split.
  - eexists _, _. split.
    { unfold trigger_route, bind, attempt, Deployment_find. cbn. rewrite Hd.
      rewrite decide_False by done. cbn. reflexivity. }
    cbn. split; [done|]. split; [done|]. split; [done|].
    intros _. split; [done|]. by exists d.
  - rewrite (trigger_route_not_found id email w Hd).
    eexists _, _. split; [reflexivity|]. by repeat split.
Qed.

(** X15: the cancel handler always answers and never throws, calls no tool
    and touches neither the queue nor the timers; an answer other than 200
    leaves the world as it was; 200 is answered only for a stored pipeline
    that is running or pending, and then one status update, cancelled, is
    sent to the room of its deployment. *)
Theorem cancel_route_answers pid w :
  exists resp w',
    cancel_route pid w = (Ok resp, w') /\
    invoked w' = invoked w /\ background w' = background w /\ timers w' = timers w /\
    (http_status resp <> 200 -> w' = w) /\
    (http_status resp = 200 ->
     exists p, pipelines w !! pid = Some p /\
               (p_status p = PRunning \/ p_status p = PPending) /\
               emitted w' = emitted w ++ [mkEvent ("deployment-" +:+ deploymentId p)
                                            (StatusUpdate (p_id p) PCancelled)]).
Proof.
  destruct (pipelines w !! pid) as [p|] eqn:Hp; cycle 1.
  { rewrite (cancel_route_missing pid w Hp).
    eexists _, _. split; [reflexivity|]. by repeat split. }
  destruct (decide (p_status p <> PRunning /\ p_status p <> PPending)) as [Hterm|Hact].
  { eexists _, _. split.
    { unfold cancel_route, bind, attempt, Pipeline_findOne. cbn. rewrite Hp.
      rewrite decide_True by done. reflexivity. }
    by repeat split. }
  destruct (cancel_steps_spec (steps p) (with_clock (S (clock w)) w)) as (l' & t & E & _).
  assert (Hgo : forall k : option Pipeline -> M World Response,
             bind (Pipeline_findOne pid) k w = k (Some p) w).
  { intros k. unfold bind, Pipeline_findOne. by rewrite Hp. }
  assert (Hst : p_status p = PRunning \/ p_status p = PPending).
  { destruct (decide (p_status p = PRunning)); [by left|].
    destruct (decide (p_status p = PPending)); [by right|]. by destruct Hact. }
  unfold cancel_route.
  destruct (deployments w !! deploymentId p) as [d|] eqn:Hd;
    [destruct (decide (d_status d = DRunning)) as [Hr|Hr]|].
  all: erewrite bind_attempt_ok;
    [|rewrite Hgo, decide_False by done;
      unfold bind at 1; cbn [new_Date]; cbn [steps set_p_endTime set_p_status];
      rewrite (bind_ok _ _ _ _ _ E);
      unfold bind at 1, Pipeline_save; unfold bind at 1, Deployment_find;
      cbn; rewrite Hd, ?decide_True, ?decide_False by done; reflexivity].
  all: cbn [ret]; eexists _, _; (split; [reflexivity|]); cbn;
    (split; [done|]); (split; [done|]); (split; [done|]); (split; [done|]);
    intros _; by exists p.
Qed.

(** ** Deleting a deployment *)

Lemma get_route_missing id w :
  deployments w !! id = None -> get_route id w = (Ok (404, None), w).
Proof.
  intros H. unfold get_route, bind, attempt, Deployment_find. cbn. by rewrite H.
Qed.

Lemma delete_route_missing id w :
  deployments w !! id = None ->
  delete_route id w = (Ok (mkReply 404 false (Some "Deployment not found") None), w).
Proof.
  intros H. unfold delete_route, bind, attempt, Deployment_findOneAndDelete. cbn.
  rewrite H. cbn. rewrite delete_id by done. by destruct w.
Qed.

Lemma delete_route_found id d w :
  deployments w !! id = Some d ->
  delete_route id w =
    (Ok (mkReply 200 true None (Some "Deployment deleted successfully")),
     with_pipelines
       (filter (fun kp : string * Pipeline => deploymentId kp.2 <> id) (pipelines w))
       (with_deployments (delete id (deployments w)) w)).
Proof.
  intros H. unfold delete_route, bind, attempt, Deployment_findOneAndDelete. cbn.
  by rewrite H.
Qed.

(** X16: what the delete handler does. For an identifier under which no
    deployment is stored it answers 404 and changes nothing, even when
    pipelines carry that identifier as their owner. Otherwise it answers 200,
    removes the deployment and exactly the pipelines it owns, keeps every
    other deployment and pipeline, and leaves the queue of runs, the timers,
    the tool calls and the events as they were. *)
Theorem delete_route_effect id w :
  exists reply w',
    delete_route id w = (Ok reply, w') /\
    match deployments w !! id with
    | None => reply_status reply = 404 /\ w' = w
    | Some _ =>
        reply_status reply = 200 /\ reply_success reply = true /\
        deployments w' !! id = None /\
        (forall k, k <> id -> deployments w' !! k = deployments w !! k) /\
        (forall pid,
           pipelines w' !! pid =
             match pipelines w !! pid with
             | Some p => if decide (deploymentId p = id) then None else Some p
             | None => None
             end) /\
        background w' = background w /\ timers w' = timers w /\
        invoked w' = invoked w /\ emitted w' = emitted w
    end.
Proof.
  destruct (deployments w !! id) as [d|] eqn:Hd.
  - rewrite (delete_route_found id d w Hd). eexists _, _. split; [reflexivity|]. cbn.
    split; [done|]. split; [done|]. split; [by rewrite lookup_delete_eq|].
    split; [intros k Hk; by rewrite lookup_delete_ne|].
    split; [|done].
    intros pid. destruct (pipelines w !! pid) as [p|] eqn:Hp.
    + case_decide as Hown.
      * apply map_lookup_filter_None. right. intros p0 Hp0. cbn. simplify_eq. tauto.
      * apply map_lookup_filter_Some. done.
    + apply map_lookup_filter_None. by left.
  - rewrite (delete_route_missing id w Hd). eexists _, _. split; [reflexivity|]. done.
Qed.

(** X17: after a deployment was deleted, every request for it is refused
    and its pipelines are gone: reading it, triggering it and deleting it
    again answer 404 and change nothing, [startPipeline] throws that the
    deployment was not found, [getPipeline] finds none of its pipelines and
    the cancel handler answers 404 for them. *)
Theorem deleted_deployment_is_gone id d pid p email by_ w :
  deployments w !! id = Some d ->
  pipelines w !! pid = Some p -> deploymentId p = id ->
  exists w',
    delete_route id w =
      (Ok (mkReply 200 true None (Some "Deployment deleted successfully")), w') /\
    get_route id w' = (Ok (404, None), w') /\
    trigger_route id email w' =
      (Ok (mkResponse 404 false (Some "Deployment not found") None), w') /\
    delete_route id w' =
      (Ok (mkReply 404 false (Some "Deployment not found") None), w') /\
    fst (startPipeline id by_ w') = Throw ("Deployment " +:+ id +:+ " not found") /\
    getPipeline pid w' = (Ok None, w') /\
    cancel_route pid w' =
      (Ok (mkResponse 404 false (Some "Pipeline not found") None), w') /\
    cancelPipeline pid w' = (Ok tt, w').
Proof.
  intros Hd Hp Hown. rewrite (delete_route_found id d w Hd).
  set (w' := with_pipelines _ _).
  assert (Hd' : deployments w' !! id = None) by (subst w'; cbn; by rewrite lookup_delete_eq).
  assert (Hp' : pipelines w' !! pid = None).
  { subst w'. cbn. apply map_lookup_filter_None. right. intros p0 Hp0. cbn.
    simplify_eq. tauto. }
  exists w'. split; [done|].
  split; [by apply get_route_missing|].
  split; [by apply trigger_route_not_found|].
  split; [by apply delete_route_missing|].
  split; [by rewrite startPipeline_not_found|].
  split; [unfold getPipeline, Pipeline_findOne; by rewrite Hp'|].
  split; [by apply cancel_route_missing|].
  unfold cancelPipeline, bind, Pipeline_findOne. by rewrite Hp'.
Qed.

(** X17, witness: the first deployment of the busy world and its running
    pipeline. *)
Lemma deleted_deployment_is_gone_witness :
  exists w',
    delete_route "d1" busy_world =
      (Ok (mkReply 200 true None (Some "Deployment deleted successfully")), w') /\
    get_route "d1" w' = (Ok (404, None), w') /\
    trigger_route "d1" (Some "alice") w' =
      (Ok (mkResponse 404 false (Some "Deployment not found") None), w') /\
    delete_route "d1" w' =
      (Ok (mkReply 404 false (Some "Deployment not found") None), w') /\
    fst (startPipeline "d1" "alice" w') = Throw ("Deployment " +:+ "d1" +:+ " not found") /\
    getPipeline "p1" w' = (Ok None, w') /\
    cancel_route "p1" w' =
      (Ok (mkResponse 404 false (Some "Pipeline not found") None), w') /\
    cancelPipeline "p1" w' = (Ok tt, w').
Proof.
  apply (deleted_deployment_is_gone "d1" helm_deployment "p1" running_pipeline
           (Some "alice") "alice" busy_world).
  - vm_compute. reflexivity.
  - vm_compute. reflexivity.
  - reflexivity.
Defined.

(** * GitHubService: the name of a repository *)

Lemma list_ascii_of_string_app (a b : string) :
  String.list_ascii_of_string (a +:+ b) =
    String.list_ascii_of_string a ++ String.list_ascii_of_string b.
Proof. induction a as [|c a IH]; [done|]. simpl. f_equal. exact IH. Qed.

Lemma dot_git_no_slash : slash ∉ dot_git.
Proof. apply (bool_decide_unpack _). vm_compute. reflexivity. Qed.

Lemma match_name_git_Some rest name :
  match_name_git rest = Some name <->
  rest = name ++ dot_git /\ name <> [] /\ slash ∉ name.
Proof.
  unfold match_name_git. split.
  - case_decide as H; [|done]. intros [= <-]. destruct H as (Hdrop & Hne & Hno).
    split; [|done]. rewrite <- Hdrop. by rewrite take_drop.
  - intros (-> & Hne & Hno).
    assert (Hn : length (name ++ dot_git) - 4 = length name).
    { rewrite length_app. cbn. lia. }
    rewrite Hn, take_app_length, drop_app_length. by rewrite decide_True.
Qed.

(** A match of the pattern ends the text: a slash, the name, ".git". *)
Lemma match_repo_Some s name :
  match_repo s = Some name ->
  exists pre, s = pre ++ slash :: name ++ dot_git /\ name <> [] /\ slash ∉ name.
Proof.
  induction s as [|c rest IH]; [done|]. cbn [match_repo].
  destruct (decide (c = slash)) as [->|Hc].
  - destruct (match_name_git rest) as [x|] eqn:Hm.
    + intros [= ->]. apply match_name_git_Some in Hm as (-> & Hne & Hno).
      by exists [].
    + intros H. destruct (IH H) as (pre & -> & Hne & Hno). by exists (slash :: pre).
  - intros H. destruct (IH H) as (pre & -> & Hne & Hno). by exists (c :: pre).
Qed.

Lemma match_repo_git pre name :
  name <> [] -> slash ∉ name ->
  match_repo (pre ++ slash :: name ++ dot_git) = Some name.
Proof.
  intros Hne Hno. induction pre as [|c pre IH].
  - cbn [app match_repo]. rewrite decide_True by done.
    by rewrite (proj2 (match_name_git_Some (name ++ dot_git) name)).
  - cbn [app match_repo]. destruct (decide (c = slash)) as [->|Hc]; [|done].
    destruct (match_name_git (pre ++ slash :: name ++ dot_git)) as [x|] eqn:Hm; [|done].
    exfalso. apply match_name_git_Some in Hm as (Heq & _ & Hx).
    change (pre ++ slash :: name ++ dot_git) with (pre ++ [slash] ++ name ++ dot_git) in Heq.
    rewrite !app_assoc in Heq. apply app_inv_tail in Heq. subst x.
    apply Hx. rewrite !elem_of_app. left. right. by apply list_elem_of_singleton.
Qed.

(** The text after the last slash is determined. *)
Lemma last_slash_unique (l1 a l2 b : list Ascii.ascii) :
  slash ∉ a -> slash ∉ b -> l1 ++ slash :: a = l2 ++ slash :: b -> a = b.
Proof.
  intros Ha Hb. revert l2. induction l1 as [|c l1 IH]; intros [|c2 l2] Heq; cbn in Heq.
  - by injection Heq.
  - injection Heq as _ ->. exfalso. apply Ha. rewrite elem_of_app. right. by left.
  - injection Heq as _ <-. exfalso. apply Hb. rewrite elem_of_app. right. by left.
  - injection Heq as _ Heq. by apply (IH l2).
Qed.

Lemma split_slash_nonempty s : split_slash s <> [].
Proof. destruct s as [|c rest]; [done|]. cbn. destruct (split_slash rest); [done|by case_decide]. Qed.

Lemma split_slash_no_slash s : slash ∉ s -> split_slash s = [s].
Proof.
  induction s as [|c rest IH]; [done|]. intros Hno. cbn.
  rewrite IH by (intros H; apply Hno; by right).
  rewrite decide_False; [done|]. intros ->. apply Hno. by left.
Qed.

Lemma split_slash_app pre name :
  slash ∉ name -> split_slash (pre ++ slash :: name) = split_slash pre ++ [name].
Proof.
  intros Hno. induction pre as [|c pre IH].
  - cbn. rewrite (split_slash_no_slash name Hno). by rewrite decide_True.
  - cbn [app split_slash]. rewrite IH.
    destruct (split_slash pre) as [|piece pieces] eqn:Hsp;
      [by apply split_slash_nonempty in Hsp|].
    cbn. by case_decide.
Qed.

Lemma split_slash_pieces s : Forall (fun piece => slash ∉ piece) (split_slash s).
Proof.
  induction s as [|c rest IH]; [repeat constructor; by apply not_elem_of_nil|].
  cbn. destruct (split_slash rest) as [|piece pieces] eqn:Hsp;
    [by apply split_slash_nonempty in Hsp|].
  apply Forall_cons_1 in IH as [Hp Hps]. case_decide as Hc.
  - constructor; [by apply not_elem_of_nil|by constructor].
  - constructor; [|done]. intros [Heq|Hin]%elem_of_cons; [congruence|done].
Qed.

Lemma last_Forall {A} (P : A -> Prop) (l : list A) d :
  Forall P l -> P d -> P (List.last l d).
Proof.
  intros Hl Hd. induction Hl as [|x l Hx Hl IH]; [done|].
  cbn. destruct l; [done|]. exact IH.
Qed.

Lemma match_repo_last_segment pre name :
  slash ∉ name -> (forall x, x <> [] -> name <> x ++ dot_git) ->
  match_repo (pre ++ slash :: name) = None.
Proof.
  intros Hno Hgit. destruct (match_repo (pre ++ slash :: name)) as [x|] eqn:Hm; [|done].
  exfalso. apply match_repo_Some in Hm as (pre' & Heq & Hne & Hx).
  apply (Hgit x Hne). apply (last_slash_unique pre name pre' (x ++ dot_git)); [done| |done].
  rewrite elem_of_app. intros [H|H]; [done|by apply dot_git_no_slash].
Qed.

Lemma string_of_chars (s : string) (l : list Ascii.ascii) :
  String.list_ascii_of_string s = l -> s = String.string_of_list_ascii l.
Proof. intros <-. by rewrite String.string_of_list_ascii_of_string. Qed.

(** X18: the repository name is a single path segment: whatever the URL,
    the name that [extractRepoName] returns holds no slash. *)
Theorem extractRepoName_no_slash repoUrl :
  slash ∉ String.list_ascii_of_string (extractRepoName repoUrl).
Proof.
  unfold extractRepoName. rewrite String.list_ascii_of_string_of_list_ascii.
  unfold extractRepoName_chars.
  destruct (match_repo _) as [name|] eqn:Hm.
  - by apply match_repo_Some in Hm as (_ & _ & _ & Hno).
  - apply (last_Forall (fun piece => slash ∉ piece)).
    + apply split_slash_pieces.
    + apply not_elem_of_nil.
Qed.

(** X19: for a URL that ends in a slash, a name of at least one character
    and no slash, and ".git", the repository name is that name, whatever
    comes before the slash. *)
Theorem extractRepoName_git_suffix prefix name :
  name <> "" -> slash ∉ String.list_ascii_of_string name ->
  extractRepoName (prefix +:+ "/" +:+ name +:+ ".git") = name.
Proof.
  intros Hne Hno. unfold extractRepoName, extractRepoName_chars.
  rewrite !list_ascii_of_string_app.
  change (String.list_ascii_of_string "/") with [slash].
  change (String.list_ascii_of_string ".git") with dot_git.
  change ([slash] ++ ?l) with (slash :: l).
  rewrite match_repo_git; [by rewrite String.string_of_list_ascii_of_string| |done].
  intros Hnil. apply Hne. apply string_of_chars in Hnil. by rewrite Hnil.
Qed.

(** X19, witness: a clone URL of GitHub. *)
Lemma extractRepoName_git_suffix_witness :
  extractRepoName ("https://github.com/acme" +:+ "/" +:+ "shop" +:+ ".git") = "shop".
Proof.
  apply (extractRepoName_git_suffix "https://github.com/acme" "shop").
  - discriminate.
  - apply (bool_decide_unpack _). vm_compute. reflexivity.
Defined.

(** X20: for a URL whose last segment holds no slash and is not a name of
    at least one character followed by ".git", the repository name is that
    last segment: the fallback of [extractRepoName]. *)
Theorem extractRepoName_last_segment prefix name :
  slash ∉ String.list_ascii_of_string name ->
  (forall x, x <> "" -> name <> x +:+ ".git") ->
  extractRepoName (prefix +:+ "/" +:+ name) = name.
Proof.
  intros Hno Hgit. unfold extractRepoName, extractRepoName_chars.
  rewrite !list_ascii_of_string_app.
  change (String.list_ascii_of_string "/") with [slash].
  change ([slash] ++ ?l) with (slash :: l).
  rewrite match_repo_last_segment; [|done|].
  - rewrite split_slash_app by done. rewrite last_last.
    by rewrite String.string_of_list_ascii_of_string.
  - intros x Hx Heq. apply (Hgit (String.string_of_list_ascii x)).
    + intros Hnil. apply Hx. apply (f_equal String.list_ascii_of_string) in Hnil.
      by rewrite String.list_ascii_of_string_of_list_ascii in Hnil.
    + apply string_of_chars in Heq. rewrite Heq.
      rewrite <- (String.string_of_list_ascii_of_string
                    (String.string_of_list_ascii x +:+ ".git")).
      rewrite list_ascii_of_string_app.
      by rewrite String.list_ascii_of_string_of_list_ascii.
Qed.

(** X20, witness: a URL without the suffix. *)
Lemma extractRepoName_last_segment_witness :
  extractRepoName ("https://github.com/acme" +:+ "/" +:+ "shop") = "shop".
Proof.
  apply (extractRepoName_last_segment "https://github.com/acme" "shop").
  - apply (bool_decide_unpack _). vm_compute. reflexivity.
  - intros x Hx Heq. destruct x as [|a [|b [|c [|e [|f x]]]]]; cbv in Heq; congruence.
Defined.

(** X21: a text without any slash is returned whole, so a bare "repo.git"
    keeps its suffix: the pattern asks for a slash before the name. *)
Theorem extractRepoName_without_slash repoUrl :
  slash ∉ String.list_ascii_of_string repoUrl ->
  extractRepoName repoUrl = repoUrl.
Proof.
  intros Hno. unfold extractRepoName, extractRepoName_chars.
  destruct (match_repo _) as [name|] eqn:Hm.
  - exfalso. apply match_repo_Some in Hm as (pre & Heq & _). apply Hno.
    rewrite Heq, elem_of_app. right. by left.
  - rewrite split_slash_no_slash by done. cbn.
    by rewrite String.string_of_list_ascii_of_string.
Qed.

(** X21, witness: a bare name with the suffix. *)
Lemma extractRepoName_without_slash_witness :
  extractRepoName "repo.git" = "repo.git".
Proof.
  apply (extractRepoName_without_slash "repo.git").
  apply (bool_decide_unpack _). vm_compute. reflexivity.
Defined.

(** * GitHubService: the type of an application *)

Lemma depends_or_dev_ok k packageJson c :
  has_properties packageJson ->
  depends_or_dev k packageJson c =
    (Ok (truthy (opt_field k (json_field "dependencies" packageJson)) ||
         truthy (opt_field k (json_field "devDependencies" packageJson))), c).
Proof.
  intros H. unfold depends_or_dev, bind.
  destruct packageJson; try done; cbn; by destruct (truthy _).
Qed.

Lemma depends_or_dev_throw k packageJson c :
  ~ has_properties packageJson ->
  exists e, depends_or_dev k packageJson c = (Throw e, c).
Proof. intros H. destruct packageJson; cbn in H; try tauto; by eexists. Qed.

(** The branch of [detectApplicationType] for a listed package.json. *)
Lemma detectApplicationType_package c path files :
  cloned c = Ok path -> listing c = Ok files -> "package.json" ∈ files ->
  detectApplicationType c =
    (Ok match package_json c with
        | Ok packageJson =>
            if decide (has_properties packageJson) then
              if truthy (opt_field "react" (json_field "dependencies" packageJson)) ||
                 truthy (opt_field "react" (json_field "devDependencies" packageJson))
              then "react"
              else if truthy (opt_field "vue" (json_field "dependencies" packageJson)) ||
                      truthy (opt_field "vue" (json_field "devDependencies" packageJson))
                   then "vue" else "nodejs"
            else "unknown"
        | Throw _ => "unknown"
        end, c).
Proof.
  intros Hc Hl Hin. unfold detectApplicationType.
  assert (Hclone : cloneRepository c = (Ok path, c))
    by (unfold cloneRepository; by rewrite Hc).
  rewrite (bind_ok _ _ _ _ _ Hclone).
  destruct (package_json c) as [packageJson|e] eqn:Hp.
  - destruct (decide (has_properties packageJson)) as [Hobj|Hnull].
    + pose proof (depends_or_dev_ok "react" packageJson c Hobj) as Hreact.
      pose proof (depends_or_dev_ok "vue" packageJson c Hobj) as Hvue.
      destruct (truthy (opt_field "react" _) || truthy (opt_field "react" _));
        [|destruct (truthy (opt_field "vue" _) || truthy (opt_field "vue" _))].
      all: erewrite bind_attempt_ok; [reflexivity|].
      all: unfold bind at 1, readdir; rewrite Hl; unfold includes;
        rewrite bool_decide_eq_true_2 by done;
        unfold bind at 1, parse_package_json; rewrite Hp;
        rewrite (bind_ok _ _ _ _ _ Hreact); try reflexivity;
        rewrite (bind_ok _ _ _ _ _ Hvue); try reflexivity;
        unfold bind, prop; destruct packageJson; try done; cbn; by destruct (truthy _).
    + destruct (depends_or_dev_throw "react" packageJson c Hnull) as [e He].
      erewrite bind_attempt_throw; cycle 1.
      { unfold bind at 1, readdir. rewrite Hl. unfold includes.
        rewrite bool_decide_eq_true_2 by done.
        unfold bind at 1, parse_package_json. rewrite Hp.
        by rewrite (bind_throw _ _ _ _ _ He). }
      reflexivity.
  - erewrite bind_attempt_throw; cycle 1.
    { unfold bind at 1, readdir. rewrite Hl. unfold includes.
      rewrite bool_decide_eq_true_2 by done.
      unfold bind at 1, parse_package_json. by rewrite Hp. }
    reflexivity.
Qed.

(** X22: [detectApplicationType] fails only with the clone. When the clone
    throws, so does the detection, with the same error. After a clone that
    succeeded it always returns one of the eight application types, and
    whenever something fails later (the directory cannot be read, or a
    listed package.json cannot be read or parsed, or holds null) the answer
    is "unknown" and no error is thrown. *)
Theorem detectApplicationType_outcomes c :
  match cloned c with
  | Throw e => detectApplicationType c = (Throw e, c)
  | Ok _ =>
      exists type,
        detectApplicationType c = (Ok type, c) /\ type ∈ application_types /\
        (detection_fails c -> type = "unknown")
  end.
Proof.
  assert (Hin : forall t : string,
             bool_decide (t ∈ application_types) = true -> t ∈ application_types).
  { intros t. apply bool_decide_eq_true_1. }
  destruct (cloned c) as [path|e] eqn:Hc; cycle 1.
  { unfold detectApplicationType, bind, cloneRepository. by rewrite Hc. }
  unfold detection_fails.
  destruct (listing c) as [files|e] eqn:Hl; cycle 1.
  { exists "unknown". split; [|by split; [apply Hin|]].
    unfold detectApplicationType, bind, attempt, cloneRepository, readdir.
    by rewrite Hc, Hl. }
  destruct (decide ("package.json" ∈ files)) as [Hpkg|Hpkg].
  - rewrite (detectApplicationType_package c path files Hc Hl Hpkg).
    eexists. split; [reflexivity|].
    destruct (package_json c) as [packageJson|e]; [|by split; [apply Hin|]].
    case_decide as Hobj; [|by split; [apply Hin|]].
    destruct (truthy _ || truthy _); [split; [by apply Hin|tauto]|].
    destruct (truthy _ || truthy _); (split; [by apply Hin|tauto]).
  - unfold detectApplicationType, bind, attempt, cloneRepository, readdir, includes.
    rewrite Hc, Hl. rewrite (bool_decide_eq_false_2 _ Hpkg).
    repeat (destruct (bool_decide _); cbn [orb ret];
            try (eexists; split; [reflexivity|split; [by apply Hin|tauto]])).
Qed.

(** X22, on a checkout whose directory cannot be read, and on one whose
    package.json does not parse although a pom.xml is listed. *)
Example detectApplicationType_after_failures :
  detection_fails (mkCheckout (Ok "/tmp/deployments/shop") (Throw "ENOENT") (Ok react_package)) /\
  fst (detectApplicationType
         (mkCheckout (Ok "/tmp/deployments/shop") (Throw "ENOENT") (Ok react_package))) =
    Ok "unknown" /\
  detection_fails (mixed_checkout (Throw "Unexpected token")) /\
  fst (detectApplicationType (mixed_checkout (Throw "Unexpected token"))) = Ok "unknown" /\
  detection_fails (mixed_checkout (Ok JNull)) /\
  fst (detectApplicationType (mixed_checkout (Ok JNull))) = Ok "unknown" /\
  fst (detectApplicationType (mkCheckout (Throw "Failed to clone repository: denied")
                                (Ok ["pom.xml"]) (Ok react_package))) =
    Throw "Failed to clone repository: denied".
Proof.
  assert (Hpkg : "package.json" ∈ ["README.md"; "pom.xml"; "package.json"; "Dockerfile"]).
  { apply (bool_decide_unpack _). vm_compute. reflexivity. }
  split; [done|]. split; [reflexivity|].
  split; [by split|]. split; [vm_compute; reflexivity|].
  split; [split; [done|cbn; tauto]|]. split; [vm_compute; reflexivity|].
  reflexivity.
Qed.

(** X23: a listed package.json decides alone. Whatever else the directory
    holds (a pom.xml, a Dockerfile), the answer is react, vue, nodejs or
    unknown, and it is unknown exactly when package.json could not be read
    or parsed or holds no object to read properties from. *)
Theorem package_json_decides c path files :
  cloned c = Ok path -> listing c = Ok files -> "package.json" ∈ files ->
  exists type,
    detectApplicationType c = (Ok type, c) /\
    type ∈ ["react"; "vue"; "nodejs"; "unknown"] /\
    (type = "unknown" <->
     match package_json c with
     | Ok packageJson => ~ has_properties packageJson
     | Throw _ => True
     end).
Proof.
  intros Hc Hl Hin.
  assert (Hmem : forall t : string,
             bool_decide (t ∈ ["react"; "vue"; "nodejs"; "unknown"]) = true ->
             t ∈ ["react"; "vue"; "nodejs"; "unknown"]).
  { intros t. apply bool_decide_eq_true_1. }
  rewrite (detectApplicationType_package c path files Hc Hl Hin).
  eexists. split; [reflexivity|].
  destruct (package_json c) as [packageJson|e]; [|by split; [apply Hmem|]].
  case_decide as Hobj; [|by split; [apply Hmem|]].
  destruct (truthy _ || truthy _); [split; [by apply Hmem|]; split; [discriminate|tauto]|].
  destruct (truthy _ || truthy _); (split; [by apply Hmem|]); split; (discriminate || tauto).
Qed.

(** X23, witness: a Java project with a Dockerfile and a package.json that
    lists react among its development dependencies. *)
Lemma package_json_decides_witness :
  exists type,
    detectApplicationType (mixed_checkout (Ok react_package)) =
      (Ok type, mixed_checkout (Ok react_package)) /\
    type ∈ ["react"; "vue"; "nodejs"; "unknown"] /\
    (type = "unknown" <-> ~ has_properties react_package).
Proof.
  apply (package_json_decides (mixed_checkout (Ok react_package))
           "/tmp/deployments/shop" ["README.md"; "pom.xml"; "package.json"; "Dockerfile"]).
  - reflexivity.
  - reflexivity.
  - apply (bool_decide_unpack _). vm_compute. reflexivity.
Defined.
